(** * Two-alternative bar-choice trials (jsPsych plugins)

    A shallow embedding of the two plugins of the repository,

      - [BarChoice]       src/jsPsych/assignment-inferenceAC.js  (plain bars)
      - [BarImageChoice]  src/unnamed/part_000                   (image overlay)

    and of the part of the jsPsych runtime they talk to: the random
    source, the keyboard listener, the timeout table and the
    [finishTrial] sink.  The runtime is not among the sources.  Its random
    source and its number arithmetic are parameters ([Runtime]); its
    plugin API is the small state machine of module [Host], which follows
    the contract the plugins rely on: a listener registered with
    [persist: false] answers one key press, a timeout fires once, both
    can be cancelled, and cancelling twice is harmless. *)

From Stdlib Require Import ZArith QArith Qround Qpower Lqa String Ascii List
  Bool Lia.
Import ListNotations.
Open Scope string_scope.
Open Scope list_scope.
Open Scope Z_scope.

(** ** JavaScript values *)

(** A call either returns or throws. *)
Inductive completion (A : Type) : Type :=
| Returns (a : A)
| Throws (msg : string).
Arguments Returns {A} a.
Arguments Throws {A} msg.

Definition bind {A B : Type} (c : completion A) (k : A -> completion B)
  : completion B :=
  match c with
  | Returns a => k a
  | Throws msg => Throws msg
  end.

(** [Math.round]: the nearest integer, halves towards plus infinity. *)
Definition Math_round (x : Q) : Z := Qfloor (x + (1 # 2))%Q.

(** The value of a [KEYS] parameter: a string such as ["ALL_KEYS"] or
    ["NO_KEYS"], or an array of key names. *)
Inductive keys : Type :=
| KeyString (s : string)
| KeyArray (l : list string).

(** [choices != "NO_KEYS"] is a loose comparison: an array is first
    converted to a string, its elements joined by commas. *)
Definition to_primitive (c : keys) : string :=
  match c with
  | KeyString s => s
  | KeyArray l => String.concat "," l
  end.

Definition loose_neq (c : keys) (s : string) : bool :=
  negb (String.eqb (to_primitive c) s).

(** [choices[i]]: an element of the array, a character of the string, or
    [undefined] ([None]).  A string of the model and the string of the
    source it stands for agree character by character when the string is
    ASCII (as the sentinels "ALL_KEYS" and "NO_KEYS" are); beyond ASCII a
    character of the model is a byte where the source indexes UTF-16 code
    units, and what is proved of a string-valued [choices] by way of its
    characters is proved of ASCII strings only ([ascii_only]). *)
Definition item (c : keys) (i : nat) : option string :=
  match c with
  | KeyString s =>
      match String.get i s with
      | Some a => Some (String a EmptyString)
      | None => None
      end
  | KeyArray l => nth_error l i
  end.

(** Whether every character of a string is an ASCII character. *)
Fixpoint ascii_only (s : string) : bool :=
  match s with
  | EmptyString => true
  | String a s' => (Ascii.nat_of_ascii a <? 128)%nat && ascii_only s'
  end.

(** [k === choices[i]] for a key name [k]; [undefined] equals no string. *)
Definition strict_eq (k : string) (v : option string) : bool :=
  match v with
  | Some s => String.eqb k s
  | None => false
  end.

(** ** The runtime's random source and number arithmetic

    [randomInt n lo hi] is the result of the [n]-th call of
    [jsPsych.randomization.randomInt(lo, hi)], which may throw;
    [Math_random n] is the result of the [n]-th call of [Math.random()];
    and [fl] rounds the exact result of an arithmetic operation to a
    number the runtime represents. *)
Record Runtime : Type := {
  randomInt : nat -> Z -> Z -> completion Z;
  Math_random : nat -> Q;
  fl : Q -> Q
}.

(** The contract of a runtime whose arithmetic is exact on every integer:
    [randomInt] samples the inclusive integer interval it is given when
    that interval is in order (nothing is assumed of it otherwise);
    [Math.random] lies in [[0, 1)]; rounding is monotone and leaves every
    integer as it is.  Binary64 arithmetic offers the last only up to
    [2^53]: see [runtime_safe]. *)
Record runtime_ok (rtm : Runtime) : Prop := {
  randomInt_range : forall n lo hi, lo <= hi ->
    exists h, randomInt rtm n lo hi = Returns h /\ lo <= h <= hi;
  Math_random_range : forall n,
    (0 <= Math_random rtm n)%Q /\ (Math_random rtm n < 1)%Q;
  fl_monotone : forall x y, (x <= y)%Q -> (fl rtm x <= fl rtm y)%Q;
  fl_integer : forall z, (fl rtm (inject_Z z) == inject_Z z)%Q
}.

(** The contract binary64 arithmetic meets: as [runtime_ok], but rounding
    is only required to leave the integers of magnitude at most [2^53] as
    they are. *)
Record runtime_safe (rtm : Runtime) : Prop := {
  safe_randomInt_range : forall n lo hi, lo <= hi ->
    exists h, randomInt rtm n lo hi = Returns h /\ lo <= h <= hi;
  safe_Math_random_range : forall n,
    (0 <= Math_random rtm n)%Q /\ (Math_random rtm n < 1)%Q;
  safe_fl_monotone : forall x y, (x <= y)%Q -> (fl rtm x <= fl rtm y)%Q;
  safe_fl_integer : forall z, - 2 ^ 53 <= z <= 2 ^ 53 ->
    (fl rtm (inject_Z z) == inject_Z z)%Q
}.

(** [a + b] on two integers: the sum as the runtime rounds it.  A rounded
    sum of two integers is an integer again, which [Qfloor] reads. *)
Definition number_add (rtm : Runtime) (a b : Z) : Z :=
  Qfloor (fl rtm (inject_Z a + inject_Z b)).

(** ** Stimulus magnitudes: the constants of one trial

    [Math.round((Math.random() * 2 - 1) * trial.jitter)] *)
Definition jitter_sample (rtm : Runtime) (n : nat) (jitter : Z) : Z :=
  Math_round
    (fl rtm (fl rtm (fl rtm (Math_random rtm n * 2) - 1) * inject_Z jitter))%Q.

Module Stim.
Record t : Type := {
  left_height : Z;
  right_height : Z;
  left_jitter : Z;
  right_jitter : Z;
  final_left : Z;
  final_right : Z
}.
End Stim.

(** The first statements of both [trial] methods. *)
Definition sample_heights (rtm : Runtime)
    (left_height_range right_height_range : Z * Z) (jitter : Z)
  : completion Stim.t :=
  bind (randomInt rtm 0 (fst left_height_range) (snd left_height_range))
    (fun left_height =>
  bind (randomInt rtm 1 (fst right_height_range) (snd right_height_range))
    (fun right_height =>
  let left_jitter := jitter_sample rtm 0 jitter in
  let right_jitter := jitter_sample rtm 1 jitter in
  let final_left := number_add rtm left_height left_jitter in
  let final_right := number_add rtm right_height right_jitter in
  Returns {| Stim.left_height := left_height;
             Stim.right_height := right_height;
             Stim.left_jitter := left_jitter;
             Stim.right_jitter := right_jitter;
             Stim.final_left := final_left;
             Stim.final_right := final_right |})).

(** ** Responses *)

(** The payload the keyboard listener hands to its callback: the key
    pressed and the reaction time in milliseconds, neither of them
    [null]. *)
Module KeyInfo.
Record t : Type := {
  key : string;
  rt : Z
}.
End KeyInfo.

(** The plugin's [response] variable; [None] is [null]. *)
Module Response.
Record t : Type := {
  rt : option Z;
  key : option string
}.

Definition of_info (info : KeyInfo.t) : t :=
  {| rt := Some (KeyInfo.rt info); key := Some (KeyInfo.key info) |}.
End Response.

(** ** The host: jsPsych's plugin API as a state machine

    The plugin API is not among the sources.  Each of its operations is
    modelled from the description the specification gives of the host:
    a registered listener invokes its callback on the first matching key
    press and can be cancelled, a scheduled timeout invokes its callback
    once and can be cancelled, and the completion sink receives the
    result record. *)

Module Host.

(** Calls of the plugin API, in the order they are made. *)
Inductive call : Type :=
| getKeyboardResponse_call
| setTimeout_call (ms : Z)
| clearAllTimeouts_call
| cancelKeyboardResponse_call
| finishTrial_call.

(** What the environment does to a running trial: a key press the
    listener accepts, or the expiry of a pending timeout. *)
Inductive event : Type :=
| KeyCaptured (info : KeyInfo.t)
| Expired.

Section Session.
Context {D : Type}.

(** One trial session: the variables the closures of [trial] share
    ([response], [keyboardListener], the display element) and the host's
    own tables.  [innerHTML] keeps of the markup only the two magnitudes
    interpolated into it; [None] is the empty string.  [finished] lists
    the records given to [finishTrial], oldest first. *)
Record session : Type := {
  response : Response.t;
  keyboardListener : option unit;
  listening : bool;
  timeouts : list Z;
  innerHTML : option (Z * Z);
  finished : list D;
  calls : list call
}.

Definition set_response (r : Response.t) (s : session) : session :=
  {| response := r; keyboardListener := keyboardListener s;
     listening := listening s; timeouts := timeouts s;
     innerHTML := innerHTML s; finished := finished s; calls := calls s |}.

Definition set_keyboardListener (h : option unit) (s : session) : session :=
  {| response := response s; keyboardListener := h;
     listening := listening s; timeouts := timeouts s;
     innerHTML := innerHTML s; finished := finished s; calls := calls s |}.

Definition set_listening (b : bool) (s : session) : session :=
  {| response := response s; keyboardListener := keyboardListener s;
     listening := b; timeouts := timeouts s;
     innerHTML := innerHTML s; finished := finished s; calls := calls s |}.

Definition set_timeouts (l : list Z) (s : session) : session :=
  {| response := response s; keyboardListener := keyboardListener s;
     listening := listening s; timeouts := l;
     innerHTML := innerHTML s; finished := finished s; calls := calls s |}.

Definition set_innerHTML (h : option (Z * Z)) (s : session) : session :=
  {| response := response s; keyboardListener := keyboardListener s;
     listening := listening s; timeouts := timeouts s;
     innerHTML := h; finished := finished s; calls := calls s |}.

Definition log (c : call) (s : session) : session :=
  {| response := response s; keyboardListener := keyboardListener s;
     listening := listening s; timeouts := timeouts s;
     innerHTML := innerHTML s; finished := finished s;
     calls := calls s ++ [c] |}.

(** The state in which [trial] is entered. *)
Definition fresh : session :=
  {| response := {| Response.rt := None; Response.key := None |};
     keyboardListener := None; listening := false; timeouts := [];
     innerHTML := None; finished := []; calls := [] |}.

(** Modelled from the spec: jsPsych's [pluginAPI.getKeyboardResponse]
    (the host's [registerKeyResponse]) registers a listener and returns
    its handle; the listener is live from now on. *)
Definition getKeyboardResponse (s : session) : session :=
  log getKeyboardResponse_call (set_listening true s).

(** Modelled from the spec: jsPsych's [pluginAPI.cancelKeyboardResponse]
    (the host's [cancel]) stops the listener; it is no error to cancel a
    listener that has fired or was cancelled. *)
Definition cancelKeyboardResponse (s : session) : session :=
  log cancelKeyboardResponse_call (set_listening false s).

(** Modelled from the spec: jsPsych's [pluginAPI.setTimeout] (the host's
    [scheduleTimeout]) adds a pending timeout. *)
Definition setTimeout (ms : Z) (s : session) : session :=
  log (setTimeout_call ms) (set_timeouts (timeouts s ++ [ms]) s).

(** Modelled from the spec: jsPsych's [pluginAPI.clearAllTimeouts] (the
    host's [cancelTimeout]) drops every pending timeout. *)
Definition clearAllTimeouts (s : session) : session :=
  log clearAllTimeouts_call (set_timeouts [] s).

(** Modelled from the spec: [jsPsych.finishTrial] (the host's
    [reportTrialComplete]) is the sink of result records; each call adds
    one. *)
Definition finishTrial (d : D) (s : session) : session :=
  log finishTrial_call
    {| response := response s; keyboardListener := keyboardListener s;
       listening := listening s; timeouts := timeouts s;
       innerHTML := innerHTML s; finished := finished s ++ [d];
       calls := calls s |}.

(** The session [s0] with [response] holding [r] and the listener live
    or not. *)
Definition awaiting (s0 : session) (r : Response.t) (l : bool) : session :=
  set_listening l (set_response r s0).

(** Modelled from the spec: the host's delivery of an event to the
    callbacks the plugin registered.  The listener invokes its callback on
    the first matching key press only (it was registered with
    [persist: false], so the host removes it before it runs the callback);
    a timeout invokes its callback once; a key press without a live
    listener and an expiry without a pending timeout reach nobody. *)
Definition deliver (on_key : KeyInfo.t -> session -> session)
    (on_timeout : session -> session) (e : event) (s : session) : session :=
  match e with
  | KeyCaptured info =>
      if listening s then on_key info (set_listening false s) else s
  | Expired =>
      match timeouts s with
      | [] => s
      | _ :: rest => on_timeout (set_timeouts rest s)
      end
  end.

End Session.
Arguments session D : clear implicits.

(** The same session with other records in [finished]. *)
Definition map_finished {D E : Type} (f : D -> E) (s : session D)
  : session E :=
  {| response := response s; keyboardListener := keyboardListener s;
     listening := listening s; timeouts := timeouts s;
     innerHTML := innerHTML s; finished := map f (finished s);
     calls := calls s |}.

End Host.

(** ** What the two plugins report in common *)

Module Core.
Record t : Type := {
  rt : option Z;
  key : option string;
  chosen_side : option string;
  correct_side : option string;
  accuracy : option Z;
  final_left : Z;
  final_right : Z;
  left_jitter : Z;
  right_jitter : Z
}.
End Core.

Import Host.

(** ** The plain-bar plugin: src/jsPsych/assignment-inferenceAC.js *)

Module BarChoice.

(** The [trial] parameter object, as [info.parameters] types it; [None]
    is [null]. *)
Module Params.
Record t : Type := {
  prompt : option string;
  left_height_range : Z * Z;
  right_height_range : Z * Z;
  jitter : Z;
  left_color : string;
  right_color : string;
  bg_color : string;
  choices : keys;
  correct_side : option string;
  trial_duration : option Z;
  response_ends_trial : bool
}.
End Params.

(** The record handed to [finishTrial]. *)
Module trial_data.
Record t : Type := {
  rt : option Z;
  key : option string;
  prompt : option string;
  chosen_side : option string;
  correct_side : option string;
  accuracy : option Z;
  final_left : Z;
  final_right : Z;
  left_color : string;
  right_color : string;
  left_jitter : Z;
  right_jitter : Z
}.
End trial_data.

Definition session : Type := Host.session trial_data.t.

Section Closures.
Variable trial : Params.t.
Variable c : Stim.t.

Definition end_trial (s : session) : session :=
  let s := clearAllTimeouts s in
  let s :=
    match keyboardListener s with
    | Some _ => cancelKeyboardResponse s
    | None => s
    end in
  (* Map key -> side *)
  let chosen_side :=
    match Response.key (response s) with
    | Some k =>
        if strict_eq k (item (Params.choices trial) 0) then Some "left"
        else if strict_eq k (item (Params.choices trial) 1) then Some "right"
        else None
    | None => None
    end in
  (* Accuracy *)
  let accuracy :=
    match Params.correct_side trial, chosen_side with
    | Some correct, Some chosen =>
        Some (if String.eqb chosen correct then 1 else 0)
    | _, _ => None
    end in
  let trial_data :=
    {| trial_data.rt := Response.rt (response s);
       trial_data.key := Response.key (response s);
       trial_data.prompt := Params.prompt trial;
       trial_data.chosen_side := chosen_side;
       trial_data.correct_side := Params.correct_side trial;
       trial_data.accuracy := accuracy;
       trial_data.final_left := Stim.final_left c;
       trial_data.final_right := Stim.final_right c;
       trial_data.left_color := Params.left_color trial;
       trial_data.right_color := Params.right_color trial;
       trial_data.left_jitter := Stim.left_jitter c;
       trial_data.right_jitter := Stim.right_jitter c |} in
  finishTrial trial_data (set_innerHTML None s).

Definition after_response (info : KeyInfo.t) (s : session) : session :=
  let s :=
    match Response.key (response s) with
    | None => set_response (Response.of_info info) s
    | Some _ => s
    end in
  if Params.response_ends_trial trial then end_trial s else s.

(** [trial] from the rendering of the markup to its last statement. *)
Definition start : session :=
  let s := set_innerHTML (Some (Stim.final_left c, Stim.final_right c)) fresh in
  let s :=
    if loose_neq (Params.choices trial) "NO_KEYS"
    then set_keyboardListener (Some tt) (getKeyboardResponse s)
    else s in
  match Params.trial_duration trial with
  | Some ms => setTimeout ms s
  | None => s
  end.

(** The host runs [after_response] on a key press and [end_trial] on the
    expiry of the timeout. *)
Definition step (e : event) (s : session) : session :=
  deliver after_response end_trial e s.

Definition run (evs : list event) (s : session) : session :=
  fold_left (fun s e => step e s) evs s.

End Closures.

(** The whole method. *)
Definition trial (rtm : Runtime) (trial : Params.t) : completion session :=
  bind (sample_heights rtm (Params.left_height_range trial)
          (Params.right_height_range trial) (Params.jitter trial))
    (fun c => Returns (start trial c)).

(** The records [end_trial] reports when [response] holds [r]. *)
Definition reported (trial : Params.t) (c : Stim.t) (r : Response.t)
  : list trial_data.t :=
  finished (end_trial trial c (set_response r fresh)).

(** The fields of a record that do not echo rendering parameters. *)
Definition core (d : trial_data.t) : Core.t :=
  {| Core.rt := trial_data.rt d;
     Core.key := trial_data.key d;
     Core.chosen_side := trial_data.chosen_side d;
     Core.correct_side := trial_data.correct_side d;
     Core.accuracy := trial_data.accuracy d;
     Core.final_left := trial_data.final_left d;
     Core.final_right := trial_data.final_right d;
     Core.left_jitter := trial_data.left_jitter d;
     Core.right_jitter := trial_data.right_jitter d |}.

(** A trial with the default ranges and colours of [info.parameters]. *)
Definition example (jitter : Z) (choices : keys) (correct_side : option string)
    (trial_duration : option Z) (response_ends_trial : bool) : Params.t :=
  {| Params.prompt := Some "dog";
     Params.left_height_range := (50, 150);
     Params.right_height_range := (50, 150);
     Params.jitter := jitter;
     Params.left_color := "#3498db";
     Params.right_color := "#e74c3c";
     Params.bg_color := "#ffffff";
     Params.choices := choices;
     Params.correct_side := correct_side;
     Params.trial_duration := trial_duration;
     Params.response_ends_trial := response_ends_trial |}.

(** Sample trials: the defaults with a two-second limit; a trial that
    neither a key press nor a limit ends; one that waits for its limit;
    one with the same key on both sides; one with a negative jitter and a
    single key; and two without a listener, the first without a limit. *)
Definition timed_trial : Params.t :=
  example 5 (KeyArray ["f"; "j"]) (Some "left") (Some 2000) true.

Definition endless_trial : Params.t :=
  example 5 (KeyArray ["f"; "j"]) (Some "left") None false.

Definition patient_trial : Params.t :=
  example 5 (KeyArray ["f"; "j"]) (Some "left") (Some 2000) false.

Definition twin_trial : Params.t :=
  example 5 (KeyArray ["f"; "f"]) (Some "right") (Some 2000) true.

Definition malformed_trial : Params.t :=
  example (-5) (KeyArray ["f"]) (Some "left") (Some 2000) true.

Definition silent_trial : Params.t :=
  example 5 (KeyString "NO_KEYS") None None true.

Definition no_keys_trial : Params.t :=
  example 5 (KeyString "NO_KEYS") None (Some 2000) true.

End BarChoice.

(** ** The image-overlay plugin: src/unnamed/part_000 *)

Module BarImageChoice.

Module Params.
Record t : Type := {
  prompt : option string;
  left_image : option string;
  right_image : option string;
  left_height_range : Z * Z;
  right_height_range : Z * Z;
  jitter : Z;
  bg_color : string;
  choices : keys;
  correct_side : option string;
  trial_duration : option Z;
  response_ends_trial : bool
}.
End Params.

Module trial_data.
Record t : Type := {
  rt : option Z;
  key : option string;
  prompt : option string;
  chosen_side : option string;
  correct_side : option string;
  accuracy : option Z;
  final_left : Z;
  final_right : Z;
  left_image : option string;
  right_image : option string;
  left_jitter : Z;
  right_jitter : Z
}.
End trial_data.

Definition session : Type := Host.session trial_data.t.

Section Closures.
Variable trial : Params.t.
Variable c : Stim.t.

Definition end_trial (s : session) : session :=
  let s := clearAllTimeouts s in
  let s :=
    match keyboardListener s with
    | Some _ => cancelKeyboardResponse s
    | None => s
    end in
  let chosen_side :=
    match Response.key (response s) with
    | Some k =>
        if strict_eq k (item (Params.choices trial) 0) then Some "left"
        else if strict_eq k (item (Params.choices trial) 1) then Some "right"
        else None
    | None => None
    end in
  let accuracy :=
    match Params.correct_side trial, chosen_side with
    | Some correct, Some chosen =>
        Some (if String.eqb chosen correct then 1 else 0)
    | _, _ => None
    end in
  let trial_data :=
    {| trial_data.rt := Response.rt (response s);
       trial_data.key := Response.key (response s);
       trial_data.prompt := Params.prompt trial;
       trial_data.chosen_side := chosen_side;
       trial_data.correct_side := Params.correct_side trial;
       trial_data.accuracy := accuracy;
       trial_data.final_left := Stim.final_left c;
       trial_data.final_right := Stim.final_right c;
       trial_data.left_image := Params.left_image trial;
       trial_data.right_image := Params.right_image trial;
       trial_data.left_jitter := Stim.left_jitter c;
       trial_data.right_jitter := Stim.right_jitter c |} in
  finishTrial trial_data (set_innerHTML None s).

Definition after_response (info : KeyInfo.t) (s : session) : session :=
  let s :=
    match Response.key (response s) with
    | None => set_response (Response.of_info info) s
    | Some _ => s
    end in
  if Params.response_ends_trial trial then end_trial s else s.

Definition start : session :=
  let s := set_innerHTML (Some (Stim.final_left c, Stim.final_right c)) fresh in
  let s :=
    if loose_neq (Params.choices trial) "NO_KEYS"
    then set_keyboardListener (Some tt) (getKeyboardResponse s)
    else s in
  match Params.trial_duration trial with
  | Some ms => setTimeout ms s
  | None => s
  end.

Definition step (e : event) (s : session) : session :=
  deliver after_response end_trial e s.

Definition run (evs : list event) (s : session) : session :=
  fold_left (fun s e => step e s) evs s.

End Closures.

Definition trial (rtm : Runtime) (trial : Params.t) : completion session :=
  bind (sample_heights rtm (Params.left_height_range trial)
          (Params.right_height_range trial) (Params.jitter trial))
    (fun c => Returns (start trial c)).

(** The records [end_trial] reports when [response] holds [r]. *)
Definition reported (trial : Params.t) (c : Stim.t) (r : Response.t)
  : list trial_data.t :=
  finished (end_trial trial c (set_response r fresh)).

(** The fields of a record that do not echo rendering parameters. *)
Definition core (d : trial_data.t) : Core.t :=
  {| Core.rt := trial_data.rt d;
     Core.key := trial_data.key d;
     Core.chosen_side := trial_data.chosen_side d;
     Core.correct_side := trial_data.correct_side d;
     Core.accuracy := trial_data.accuracy d;
     Core.final_left := trial_data.final_left d;
     Core.final_right := trial_data.final_right d;
     Core.left_jitter := trial_data.left_jitter d;
     Core.right_jitter := trial_data.right_jitter d |}.

(** A trial with the default ranges of [info.parameters]. *)
Definition example (jitter : Z) (choices : keys) (correct_side : option string)
    (trial_duration : option Z) (response_ends_trial : bool) : Params.t :=
  {| Params.prompt := Some "dog";
     Params.left_image := Some "img/left.png";
     Params.right_image := Some "img/right.png";
     Params.left_height_range := (50, 150);
     Params.right_height_range := (50, 150);
     Params.jitter := jitter;
     Params.bg_color := "#ffffff";
     Params.choices := choices;
     Params.correct_side := correct_side;
     Params.trial_duration := trial_duration;
     Params.response_ends_trial := response_ends_trial |}.

Definition timed_trial : Params.t :=
  example 5 (KeyArray ["f"; "j"]) (Some "left") (Some 2000) true.

End BarImageChoice.

(** ** Reading a run off its trace *)

Definition no_response : Response.t :=
  {| Response.rt := None; Response.key := None |}.

(** Whether an event ends a trial whose listener is registered or not
    ([registered]), with the given [trial_duration] and
    [response_ends_trial]. *)
Definition resolves (registered : bool) (duration : option Z) (ends : bool)
    (e : event) : bool :=
  match e with
  | KeyCaptured _ => registered && ends
  | Expired => match duration with Some _ => true | None => false end
  end.

(** The response a trace resolves the trial with, if it resolves it:
    [r] is the response held so far and [l] tells whether the listener is
    still live. *)
Fixpoint outcome (duration : option Z) (ends : bool) (r : Response.t)
    (l : bool) (evs : list event) : option Response.t :=
  match evs with
  | [] => None
  | KeyCaptured info :: evs' =>
      if l then
        if ends then Some (Response.of_info info)
        else outcome duration ends (Response.of_info info) false evs'
      else outcome duration ends r l evs'
  | Expired :: evs' =>
      match duration with
      | Some _ => Some r
      | None => outcome duration ends r l evs'
      end
  end.

(** A session on which no event can act any more. *)
Definition quiescent {D : Type} (s : Host.session D) : Prop :=
  listening s = false /\ timeouts s = [].

(** Two parameter objects that differ in their rendering parameters
    only. *)
Definition same_engine (p : BarChoice.Params.t) (q : BarImageChoice.Params.t)
  : Prop :=
  BarChoice.Params.left_height_range p = BarImageChoice.Params.left_height_range q
  /\ BarChoice.Params.right_height_range p
     = BarImageChoice.Params.right_height_range q
  /\ BarChoice.Params.jitter p = BarImageChoice.Params.jitter q
  /\ BarChoice.Params.choices p = BarImageChoice.Params.choices q
  /\ BarChoice.Params.correct_side p = BarImageChoice.Params.correct_side q
  /\ BarChoice.Params.trial_duration p = BarImageChoice.Params.trial_duration q
  /\ BarChoice.Params.response_ends_trial p
     = BarImageChoice.Params.response_ends_trial q.

(** Two sessions that differ in the rendering parameters their records
    echo only. *)
Definition alike (s : BarChoice.session) (t : BarImageChoice.session) : Prop :=
  map_finished BarChoice.core s = map_finished BarImageChoice.core t.

(** ** Sample inputs *)

(** A runtime whose [randomInt] returns the lower bound, whose
    [Math.random] returns [u] and whose arithmetic is exact. *)
Definition constant_runtime (u : Q) : Runtime :=
  {| randomInt := fun _ lo _ => Returns lo;
     Math_random := fun _ => u;
     fl := fun x => x |}.

Definition press (k : string) (ms : Z) : event :=
  KeyCaptured {| KeyInfo.key := k; KeyInfo.rt := ms |}.

Definition sample_stim : Stim.t :=
  {| Stim.left_height := 50; Stim.right_height := 50;
     Stim.left_jitter := 3; Stim.right_jitter := 3;
     Stim.final_left := 53; Stim.final_right := 53 |}.

(** ** Binary64 arithmetic

    Rounding of a rational to the nearest number with a significand of 53
    bits, ties to the even significand.  The exponent is left unbounded:
    there is neither overflow to infinity nor a subnormal range, neither
    of which the numbers of the sample trials come near. *)
Definition round_half_even (x : Q) : Z :=
  let f := Qfloor x in
  match (x - inject_Z f ?= 1 # 2)%Q with
  | Lt => f
  | Gt => f + 1
  | Eq => if Z.even f then f else f + 1
  end.

(** For [x > 0], the [e] with [2^52 <= x / 2^e < 2^53]. *)
Definition exponent (x : Q) : Z :=
  let e := Z.log2 (Qnum x) - Z.log2 (Zpos (Qden x)) - 52 in
  if Qle_bool (inject_Z (2 ^ 52)) (x / Qpower 2 e) then e else e - 1.

Definition binary64 (x : Q) : Q :=
  match (x ?= 0)%Q with
  | Eq => 0%Q
  | Gt => let e := exponent x in
          (inject_Z (round_half_even (x / Qpower 2 e)) * Qpower 2 e)%Q
  | Lt => let e := exponent (- x) in
          (- (inject_Z (round_half_even (- x / Qpower 2 e)) * Qpower 2 e))%Q
  end.

(** A runtime with binary64 arithmetic whose [randomInt] returns the lower
    bound and whose [Math.random] returns [u]. *)
Definition binary64_runtime (u : Q) : Runtime :=
  {| randomInt := fun _ lo _ => Returns lo;
     Math_random := fun _ => u;
     fl := binary64 |}.

(** A trial whose heights are 3 and whose jitter bound, [2^53 + 6], is a
    binary64 number beyond the integers binary64 holds one by one. *)
Definition wide_jitter_trial : BarChoice.Params.t :=
  {| BarChoice.Params.prompt := Some "dog";
     BarChoice.Params.left_height_range := (3, 3);
     BarChoice.Params.right_height_range := (3, 3);
     BarChoice.Params.jitter := 2 ^ 53 + 6;
     BarChoice.Params.left_color := "#3498db";
     BarChoice.Params.right_color := "#e74c3c";
     BarChoice.Params.bg_color := "#ffffff";
     BarChoice.Params.choices := KeyArray ["f"; "j"];
     BarChoice.Params.correct_side := Some "left";
     BarChoice.Params.trial_duration := Some 2000;
     BarChoice.Params.response_ends_trial := true |}.

(** The constants of that trial when [Math.random()] returns 0. *)
Definition wide_jitter_stim : Stim.t :=
  {| Stim.left_height := 3; Stim.right_height := 3;
     Stim.left_jitter := - (2 ^ 53 + 6); Stim.right_jitter := - (2 ^ 53 + 6);
     Stim.final_left := - (2 ^ 53 + 4); Stim.final_right := - (2 ^ 53 + 4) |}.

(** ** The defaults of [info.parameters]

    A trial whose parameters are the defaults of the plugin, but for the
    prompt (and, for the image plugin, the two images), which the
    experiment supplies. *)
Definition bar_choice_defaults (prompt : option string) : BarChoice.Params.t :=
  {| BarChoice.Params.prompt := prompt;
     BarChoice.Params.left_height_range := (50, 150);
     BarChoice.Params.right_height_range := (50, 150);
     BarChoice.Params.jitter := 5;
     BarChoice.Params.left_color := "#3498db";
     BarChoice.Params.right_color := "#e74c3c";
     BarChoice.Params.bg_color := "#ffffff";
     BarChoice.Params.choices := KeyArray ["f"; "j"];
     BarChoice.Params.correct_side := None;
     BarChoice.Params.trial_duration := None;
     BarChoice.Params.response_ends_trial := true |}.

Definition bar_image_choice_defaults (prompt left_image right_image : option string)
  : BarImageChoice.Params.t :=
  {| BarImageChoice.Params.prompt := prompt;
     BarImageChoice.Params.left_image := left_image;
     BarImageChoice.Params.right_image := right_image;
     BarImageChoice.Params.left_height_range := (50, 150);
     BarImageChoice.Params.right_height_range := (50, 150);
     BarImageChoice.Params.jitter := 5;
     BarImageChoice.Params.bg_color := "#ffffff";
     BarImageChoice.Params.choices := KeyArray ["f"; "j"];
     BarImageChoice.Params.correct_side := None;
     BarImageChoice.Params.trial_duration := None;
     BarImageChoice.Params.response_ends_trial := true |}.

(** * Properties *)

(** ** Sampling *)
(** [Math.round] keeps a number that lies between two opposite integers
    between them. *)
Lemma Math_round_bounds (x : Q) (J : Z) :
  (- inject_Z J <= x)%Q -> (x <= inject_Z J)%Q -> - J <= Math_round x <= J.
Proof.
  intros Hlo Hhi. unfold Math_round. split.
  - rewrite <- (Qfloor_Z (- J)). apply Qfloor_resp_le.
    rewrite inject_Z_opp. lra.
  - assert (H : (inject_Z (Qfloor (x + (1 # 2))) < inject_Z (J + 1))%Q).
    { apply Qle_lt_trans with (x + (1 # 2))%Q; [apply Qfloor_le|].
      rewrite inject_Z_plus. change (inject_Z 1) with 1%Q. lra. }
    rewrite <- Zlt_Qlt in H. lia.
Qed.

(** The sampled jitter stays within its bound, whatever the rounding of
    the intermediate products. *)
Lemma jitter_sample_bounds rtm n J :
  runtime_ok rtm -> 0 <= J -> - J <= jitter_sample rtm n J <= J.
Proof.
  intros [_ Hu Hmono Hint] HJ. unfold jitter_sample.
  destruct (Hu n) as [Hu0 Hu1].
  set (u := Math_random rtm n) in *.
  assert (HJq : (0 <= inject_Z J)%Q) by (now rewrite Zle_Qle in HJ).
  assert (Ha : (0 <= fl rtm (u * 2))%Q /\ (fl rtm (u * 2) <= 2)%Q).
  { split.
    - rewrite <- (Hint 0). apply Hmono. change (inject_Z 0) with 0%Q. lra.
    - rewrite <- (Hint 2) at 2. apply Hmono. change (inject_Z 2) with 2%Q. lra. }
  set (a := fl rtm (u * 2)) in *. destruct Ha as [Ha0 Ha2].
  assert (Hb : (-(1) <= fl rtm (a - 1))%Q /\ (fl rtm (a - 1) <= 1)%Q).
  { split.
    - rewrite <- (Hint (-1)). apply Hmono. change (inject_Z (-1)) with (-(1))%Q. lra.
    - rewrite <- (Hint 1) at 2. apply Hmono. change (inject_Z 1) with 1%Q. lra. }
  set (b := fl rtm (a - 1)) in *. destruct Hb as [Hb0 Hb1].
  apply Math_round_bounds.
  - rewrite <- inject_Z_opp, <- (Hint (- J)). apply Hmono.
    rewrite inject_Z_opp. nra.
  - rewrite <- (Hint J) at 2. apply Hmono. nra.
Qed.

(** The same within the integers binary64 holds exactly. *)
Lemma jitter_sample_bounds_safe rtm n J :
  runtime_safe rtm -> 0 <= J <= 2 ^ 53 -> - J <= jitter_sample rtm n J <= J.
Proof.
  intros [_ Hu Hmono Hint] HJ. unfold jitter_sample.
  destruct (Hu n) as [Hu0 Hu1].
  set (u := Math_random rtm n) in *.
  assert (HJq : (0 <= inject_Z J)%Q)
    by (change 0%Q with (inject_Z 0); rewrite <- Zle_Qle; lia).
  assert (Ha : (0 <= fl rtm (u * 2))%Q /\ (fl rtm (u * 2) <= 2)%Q).
  { split.
    - apply Qle_trans with (fl rtm (inject_Z 0)).
      + rewrite (Hint 0) by lia. apply Qle_refl.
      + apply Hmono. change (inject_Z 0) with 0%Q. lra.
    - apply Qle_trans with (fl rtm (inject_Z 2)).
      + apply Hmono. change (inject_Z 2) with 2%Q. lra.
      + rewrite (Hint 2) by lia. apply Qle_refl. }
  set (a := fl rtm (u * 2)) in *. destruct Ha as [Ha0 Ha2].
  assert (Hb : (-(1) <= fl rtm (a - 1))%Q /\ (fl rtm (a - 1) <= 1)%Q).
  { split.
    - apply Qle_trans with (fl rtm (inject_Z (-1))).
      + rewrite (Hint (-1)) by lia. apply Qle_refl.
      + apply Hmono. change (inject_Z (-1)) with (-(1))%Q. lra.
    - apply Qle_trans with (fl rtm (inject_Z 1)).
      + apply Hmono. change (inject_Z 1) with 1%Q. lra.
      + rewrite (Hint 1) by lia. apply Qle_refl. }
  set (b := fl rtm (a - 1)) in *. destruct Hb as [Hb0 Hb1].
  apply Math_round_bounds.
  - apply Qle_trans with (fl rtm (inject_Z (- J))).
    + rewrite (Hint (- J)) by lia. rewrite inject_Z_opp. apply Qle_refl.
    + apply Hmono. rewrite inject_Z_opp. nra.
  - apply Qle_trans with (fl rtm (inject_Z J)).
    + apply Hmono. nra.
    + rewrite (Hint J) by lia. apply Qle_refl.
Qed.

(** Where rounding leaves the exact sum as it is, the sum of the runtime
    is the sum. *)
Lemma number_add_exact rtm a b :
  (forall x y, (x <= y)%Q -> (fl rtm x <= fl rtm y)%Q) ->
  (fl rtm (inject_Z (a + b)) == inject_Z (a + b))%Q ->
  number_add rtm a b = a + b.
Proof.
  intros Hmono Hfix. unfold number_add.
  assert (E : (fl rtm (inject_Z a + inject_Z b) == inject_Z (a + b))%Q).
  { rewrite <- Hfix. apply Qle_antisym; apply Hmono;
      rewrite inject_Z_plus; apply Qle_refl. }
  rewrite E. apply Qfloor_Z.
Qed.

Lemma number_add_ok rtm a b : runtime_ok rtm -> number_add rtm a b = a + b.
Proof.
  intros [_ _ Hmono Hint]. apply number_add_exact; [exact Hmono | apply Hint].
Qed.

Lemma number_add_safe rtm a b :
  runtime_safe rtm -> - 2 ^ 53 <= a + b <= 2 ^ 53 ->
  number_add rtm a b = a + b.
Proof.
  intros [_ _ Hmono Hint] H. apply number_add_exact; [exact Hmono|].
  now apply Hint.
Qed.

(** A runtime that is exact on every integer is exact on the small ones. *)
Lemma runtime_ok_safe rtm : runtime_ok rtm -> runtime_safe rtm.
Proof.
  intros [H1 H2 H3 H4]. split; auto.
Qed.

(** ** Binary64 rounding meets the contract *)

(** Powers of two. *)
Lemma pow2_pos e : (0 < Qpower 2 e)%Q.
Proof. apply Qpower_0_lt. reflexivity. Qed.

Lemma pow2_succ e : (Qpower 2 (e + 1) == 2 * Qpower 2 e)%Q.
Proof.
  rewrite Qpower_plus by discriminate. change (Qpower 2 1) with 2%Q.
  apply Qmult_comm.
Qed.

Lemma pow2_le e e' : e <= e' -> (Qpower 2 e <= Qpower 2 e')%Q.
Proof. intros H. apply Qpower_le_compat_l; [exact H | discriminate]. Qed.

Lemma pow2_Z n : 0 <= n -> (Qpower 2 n == inject_Z (2 ^ n))%Q.
Proof. intros H. now rewrite Zpower_Qpower. Qed.

(** [round_half_even] lies between the floor and its successor, fixes the
    integers and is monotone. *)
Lemma round_half_even_floor x :
  Qfloor x <= round_half_even x <= Qfloor x + 1.
Proof.
  unfold round_half_even.
  destruct (x - inject_Z (Qfloor x) ?= 1 # 2)%Q; [destruct (Z.even _)| |]; lia.
Qed.

Lemma round_half_even_Z z : round_half_even (inject_Z z) = z.
Proof.
  unfold round_half_even. rewrite Qfloor_Z.
  assert (E : (inject_Z z - inject_Z z ?= 1 # 2)%Q = Lt).
  { rewrite <- Qlt_alt. lra. }
  now rewrite E.
Qed.

Lemma round_half_even_ge x z :
  (inject_Z z <= x)%Q -> z <= round_half_even x.
Proof.
  intros H. apply Qfloor_resp_le in H. rewrite Qfloor_Z in H.
  destruct (round_half_even_floor x). lia.
Qed.

Lemma round_half_even_le x z :
  (x <= inject_Z z)%Q -> round_half_even x <= z.
Proof.
  intros H. assert (Hf := Qfloor_resp_le _ _ H). rewrite Qfloor_Z in Hf.
  destruct (Z.eq_dec (Qfloor x) z) as [E|N].
  - unfold round_half_even.
    assert (Hle := Qfloor_le x). rewrite E in *.
    assert (C : (x - inject_Z z ?= 1 # 2)%Q = Lt).
    { rewrite <- Qlt_alt. lra. }
    rewrite C. lia.
  - destruct (round_half_even_floor x). lia.
Qed.

Lemma round_half_even_mono x y :
  (x <= y)%Q -> round_half_even x <= round_half_even y.
Proof.
  intros H. assert (Hf := Qfloor_resp_le _ _ H).
  destruct (Z.eq_dec (Qfloor x) (Qfloor y)) as [E|N].
  - unfold round_half_even. rewrite <- E.
    destruct (x - inject_Z (Qfloor x) ?= 1 # 2)%Q eqn:Cx;
      destruct (y - inject_Z (Qfloor x) ?= 1 # 2)%Q eqn:Cy;
      try (destruct (Z.even (Qfloor x))); try lia;
      exfalso;
      repeat match goal with
        | C : (_ ?= _)%Q = Eq |- _ => rewrite <- Qeq_alt in C
        | C : (_ ?= _)%Q = Lt |- _ => rewrite <- Qlt_alt in C
        | C : (_ ?= _)%Q = Gt |- _ => rewrite <- Qgt_alt in C
        end; lra.
  - destruct (round_half_even_floor x), (round_half_even_floor y). lia.
Qed.

(** A rational is its numerator over its denominator. *)
Lemma Q_as_quotient x :
  (x == inject_Z (Qnum x) / inject_Z (Zpos (Qden x)))%Q.
Proof. destruct x as [n d]. cbn [Qnum Qden]. now rewrite <- Qmake_Qdiv. Qed.

(** [Z.log2] brackets a positive integer between two powers of two. *)
Lemma log2_bounds n :
  0 < n ->
  (Qpower 2 (Z.log2 n) <= inject_Z n)%Q
  /\ (inject_Z n < 2 * Qpower 2 (Z.log2 n))%Q.
Proof.
  intros H. destruct (Z.log2_spec n H) as [H1 H2].
  assert (H0 := Z.log2_nonneg n).
  rewrite <- pow2_succ, !pow2_Z by lia.
  rewrite <- Zle_Qle, <- Zlt_Qlt.
  split; [exact H1 | now rewrite Z.add_1_r].
Qed.

(** [exponent] scales a positive number into [[2^52, 2^53)]. *)
Lemma exponent_spec x :
  (0 < x)%Q ->
  (inject_Z (2 ^ 52) * Qpower 2 (exponent x) <= x)%Q
  /\ (x < inject_Z (2 ^ 53) * Qpower 2 (exponent x))%Q.
Proof.
  intros Hx. unfold exponent. cbv zeta.
  set (a := Z.log2 (Qnum x)). set (b := Z.log2 (Zpos (Qden x))).
  assert (Hn : 0 < Qnum x).
  { destruct x as [n d]. unfold Qlt in Hx. cbn in *. lia. }
  destruct (log2_bounds _ Hn) as [A1 A2]. fold a in A1, A2.
  destruct (log2_bounds (Zpos (Qden x)) ltac:(lia)) as [B1 B2].
  fold b in B1, B2.
  assert (PA := pow2_pos a). assert (PB := pow2_pos b).
  set (N := inject_Z (Qnum x)) in *. set (D := inject_Z (Zpos (Qden x))) in *.
  assert (HD : (0 < D)%Q) by (apply Qlt_le_trans with (Qpower 2 b); assumption).
  assert (Ex : (x * D == N)%Q).
  { rewrite (Q_as_quotient x) at 1. fold N D. field. lra. }
  assert (Ee : (Qpower 2 (a - b - 52) * (inject_Z (2 ^ 52) * Qpower 2 b)
                == Qpower 2 a)%Q).
  { rewrite <- (pow2_Z 52) by lia. rewrite <- !Qpower_plus by discriminate.
    now replace (a - b - 52 + (52 + b)) with a by lia. }
  assert (PE := pow2_pos (a - b - 52)).
  set (E := Qpower 2 (a - b - 52)) in *.
  set (A := Qpower 2 a) in *. set (B := Qpower 2 b) in *.
  change (inject_Z (2 ^ 53)) with (2 * inject_Z (2 ^ 52))%Q.
  set (K := inject_Z (2 ^ 52)) in *.
  assert (HK : (0 < K)%Q) by reflexivity.
  (* x < 2 K E  and  K E < 2 x *)
  assert (Hup : (x < 2 * K * E)%Q).
  { apply Qmult_lt_r with (D * B)%Q; [nra|].
    setoid_replace (x * (D * B))%Q with (N * B)%Q by (rewrite <- Ex; ring).
    setoid_replace (2 * K * E * (D * B))%Q with (2 * A * D)%Q
      by (rewrite <- Ee; ring).
    nra. }
  assert (Hlo : (K * E < 2 * x)%Q).
  { apply Qmult_lt_r with (D * B)%Q; [nra|].
    setoid_replace (2 * x * (D * B))%Q with (2 * N * B)%Q by (rewrite <- Ex; ring).
    setoid_replace (K * E * (D * B))%Q with (A * D)%Q by (rewrite <- Ee; ring).
    nra. }
  destruct (Qle_bool K (x / E)) eqn:C; cbv iota.
  - apply Qle_bool_imp_le in C. fold E. split; [|lra].
    apply Qmult_le_r with (/ E)%Q; [now apply Qinv_lt_0_compat|].
    setoid_replace (K * E * / E)%Q with K by (field; lra). exact C.
  - assert (C' : (x / E < K)%Q).
    { apply Qnot_le_lt. intros H. apply Qle_bool_iff in H. congruence. }
    assert (C2 : (x < K * E)%Q).
    { apply Qmult_lt_r with (/ E)%Q; [now apply Qinv_lt_0_compat|].
      setoid_replace (K * E * / E)%Q with K by (field; lra). exact C'. }
    assert (E2 : (E == 2 * Qpower 2 (a - b - 52 - 1))%Q).
    { unfold E. rewrite <- pow2_succ. now replace (a - b - 52 - 1 + 1)
        with (a - b - 52) by lia. }
    assert (PE' := pow2_pos (a - b - 52 - 1)).
    set (E' := Qpower 2 (a - b - 52 - 1)) in *.
    split; nra.
Qed.

(** Rounding to the nearest integer depends on the value only. *)
Lemma round_half_even_comp x y :
  (x == y)%Q -> round_half_even x = round_half_even y.
Proof.
  intros E. apply Z.le_antisymm; apply round_half_even_mono; rewrite E;
    apply Qle_refl.
Qed.

(** The exponent grows with the number. *)
Lemma exponent_mono x y :
  (0 < x)%Q -> (x <= y)%Q -> exponent x <= exponent y.
Proof.
  intros Hx Hxy.
  destruct (exponent_spec x Hx) as [X1 X2].
  destruct (exponent_spec y (Qlt_le_trans _ _ _ Hx Hxy)) as [Y1 Y2].
  destruct (Z.le_gt_cases (exponent x) (exponent y)) as [H|H]; [exact H|].
  exfalso.
  assert (P1 := pow2_le (exponent y + 1) (exponent x) ltac:(lia)).
  rewrite pow2_succ in P1.
  assert (Py := pow2_pos (exponent y)). assert (Px := pow2_pos (exponent x)).
  change (inject_Z (2 ^ 53)) with (2 * inject_Z (2 ^ 52))%Q in *.
  set (K := inject_Z (2 ^ 52)) in *.
  assert (HK : (0 < K)%Q) by reflexivity.
  nra.
Qed.

(** [binary64] on positive, negative and null numbers. *)
Lemma binary64_pos x :
  (0 < x)%Q ->
  (binary64 x
   == inject_Z (round_half_even (x / Qpower 2 (exponent x)))
      * Qpower 2 (exponent x))%Q.
Proof.
  intros Hx. unfold binary64.
  assert (C : (x ?= 0)%Q = Gt) by (now rewrite <- Qgt_alt).
  rewrite C. reflexivity.
Qed.

Lemma binary64_neg x : (x < 0)%Q -> (binary64 x == - binary64 (- x))%Q.
Proof.
  intros Hx. unfold binary64 at 1.
  assert (C : (x ?= 0)%Q = Lt) by (now rewrite <- Qlt_alt).
  rewrite C. rewrite (binary64_pos (- x)) by lra. reflexivity.
Qed.

Lemma binary64_zero x : (x == 0)%Q -> (binary64 x == 0)%Q.
Proof.
  intros Hx. unfold binary64.
  assert (C : (x ?= 0)%Q = Eq) by (now rewrite <- Qeq_alt).
  rewrite C. reflexivity.
Qed.

(** A rounded positive number stays within its binade. *)
Lemma binary64_pos_bounds x :
  (0 < x)%Q ->
  (inject_Z (2 ^ 52) * Qpower 2 (exponent x) <= binary64 x)%Q
  /\ (binary64 x <= inject_Z (2 ^ 53) * Qpower 2 (exponent x))%Q.
Proof.
  intros Hx. rewrite (binary64_pos x Hx).
  destruct (exponent_spec x Hx) as [X1 X2].
  assert (P := pow2_pos (exponent x)).
  set (E := Qpower 2 (exponent x)) in *.
  split; apply Qmult_le_compat_r; try lra; rewrite <- Zle_Qle.
  - apply round_half_even_ge.
    apply Qmult_le_r with E; [exact P|].
    setoid_replace (x / E * E)%Q with x by (field; lra). exact X1.
  - apply round_half_even_le.
    apply Qmult_le_r with E; [exact P|].
    setoid_replace (x / E * E)%Q with x by (field; lra). lra.
Qed.

(** Rounding is monotone: on positive numbers, then on all. *)
Lemma binary64_pos_mono x y :
  (0 < x)%Q -> (x <= y)%Q -> (binary64 x <= binary64 y)%Q.
Proof.
  intros Hx Hxy. assert (Hy : (0 < y)%Q) by lra.
  assert (He := exponent_mono x y Hx Hxy).
  destruct (Z.eq_dec (exponent x) (exponent y)) as [E|N].
  - rewrite (binary64_pos x Hx), (binary64_pos y Hy), E.
    assert (P := pow2_pos (exponent y)).
    apply Qmult_le_compat_r; [|lra]. rewrite <- Zle_Qle.
    apply round_half_even_mono.
    apply Qmult_le_r with (Qpower 2 (exponent y)); [exact P|].
    setoid_replace (x / Qpower 2 (exponent y) * Qpower 2 (exponent y))%Q
      with x by (field; lra).
    setoid_replace (y / Qpower 2 (exponent y) * Qpower 2 (exponent y))%Q
      with y by (field; lra).
    exact Hxy.
  - destruct (binary64_pos_bounds x Hx) as [_ X].
    destruct (binary64_pos_bounds y Hy) as [Y _].
    assert (P1 := pow2_le (exponent x + 1) (exponent y) ltac:(lia)).
    rewrite pow2_succ in P1.
    assert (Px := pow2_pos (exponent x)).
    change (inject_Z (2 ^ 53)) with (2 * inject_Z (2 ^ 52))%Q in *.
    set (K := inject_Z (2 ^ 52)) in *.
    assert (HK : (0 < K)%Q) by reflexivity.
    apply Qle_trans with (2 * K * Qpower 2 (exponent x))%Q; [exact X|].
    apply Qle_trans with (K * Qpower 2 (exponent y))%Q; [nra | exact Y].
Qed.

Lemma binary64_pos_gt x : (0 < x)%Q -> (0 < binary64 x)%Q.
Proof.
  intros Hx. destruct (binary64_pos_bounds x Hx) as [H _].
  assert (P := pow2_pos (exponent x)).
  assert (HK : (0 < inject_Z (2 ^ 52))%Q) by reflexivity.
  nra.
Qed.

Lemma binary64_monotone x y : (x <= y)%Q -> (binary64 x <= binary64 y)%Q.
Proof.
  intros Hxy.
  destruct (Q_dec x 0) as [[Hx|Hx]|Hx], (Q_dec y 0) as [[Hy|Hy]|Hy].
  - rewrite (binary64_neg x Hx), (binary64_neg y Hy).
    assert (H := binary64_pos_mono (- y) (- x) ltac:(lra) ltac:(lra)). lra.
  - rewrite (binary64_neg x Hx).
    assert (H1 := binary64_pos_gt (- x) ltac:(lra)).
    assert (H2 := binary64_pos_gt y Hy). lra.
  - rewrite (binary64_neg x Hx), (binary64_zero y Hy).
    assert (H1 := binary64_pos_gt (- x) ltac:(lra)). lra.
  - lra.
  - now apply binary64_pos_mono.
  - lra.
  - lra.
  - rewrite (binary64_zero x Hx).
    assert (H2 := binary64_pos_gt y Hy). lra.
  - rewrite (binary64_zero x Hx), (binary64_zero y Hy). lra.
Qed.

(** Rounding leaves the integers up to [2^53] as they are. *)
Lemma binary64_pos_integer z :
  0 < z <= 2 ^ 53 -> (binary64 (inject_Z z) == inject_Z z)%Q.
Proof.
  intros [Hz Hmax].
  assert (Hx : (0 < inject_Z z)%Q)
    by (change 0%Q with (inject_Z 0); now rewrite <- Zlt_Qlt).
  rewrite (binary64_pos _ Hx).
  destruct (exponent_spec _ Hx) as [X1 X2].
  set (e := exponent (inject_Z z)) in *.
  assert (Hq : (inject_Z z <= inject_Z (2 ^ 53))%Q) by (now rewrite <- Zle_Qle).
  assert (He : e <= 1).
  { destruct (Z.le_gt_cases e 1) as [H|H]; [exact H | exfalso].
    assert (P := pow2_le 2 e ltac:(lia)). change (Qpower 2 2) with 4%Q in P.
    change (inject_Z (2 ^ 53)) with (2 * inject_Z (2 ^ 52))%Q in *.
    set (K := inject_Z (2 ^ 52)) in *.
    assert (HK : (0 < K)%Q) by reflexivity. nra. }
  destruct (Z.eq_dec e 1) as [E1|N1].
  - rewrite E1 in *. change (Qpower 2 1) with 2%Q in *.
    assert (Ez : z = 2 ^ 53).
    { apply Z.le_antisymm; [exact Hmax|]. rewrite Zle_Qle.
      change (inject_Z (2 ^ 53)) with (inject_Z (2 ^ 52) * 2)%Q. exact X1. }
    subst z.
    rewrite (round_half_even_comp _ (inject_Z (2 ^ 52))) by reflexivity.
    rewrite round_half_even_Z. reflexivity.
  - assert (Hp : (Qpower 2 e == / inject_Z (2 ^ (- e)))%Q).
    { rewrite <- (Z.opp_involutive e) at 1. rewrite Qpower_opp, pow2_Z by lia.
      reflexivity. }
    assert (Hpos : (0 < inject_Z (2 ^ (- e)))%Q).
    { rewrite <- pow2_Z by lia. apply pow2_pos. }
    rewrite (round_half_even_comp _ (inject_Z (z * 2 ^ (- e)))).
    + rewrite round_half_even_Z, Hp, inject_Z_mult. field. lra.
    + rewrite Hp, inject_Z_mult. field. lra.
Qed.

Lemma binary64_integer z :
  - 2 ^ 53 <= z <= 2 ^ 53 -> (binary64 (inject_Z z) == inject_Z z)%Q.
Proof.
  intros Hz. destruct (Z.lt_trichotomy z 0) as [H|[H|H]].
  - assert (Hq : (inject_Z z < 0)%Q)
      by (change 0%Q with (inject_Z 0); now rewrite <- Zlt_Qlt).
    rewrite (binary64_neg _ Hq), <- inject_Z_opp.
    rewrite binary64_pos_integer by lia. rewrite inject_Z_opp. ring.
  - subst z. reflexivity.
  - apply binary64_pos_integer. lia.
Qed.

(** Binary64 arithmetic meets the contract. *)
Lemma binary64_runtime_safe (u : Q) :
  (0 <= u)%Q -> (u < 1)%Q -> runtime_safe (binary64_runtime u).
Proof.
  intros H0 H1. split; cbn.
  - intros _ lo hi H. exists lo. split; [reflexivity | lia].
  - intros _. now split.
  - apply binary64_monotone.
  - apply binary64_integer.
Qed.

(** The runtime of the sample inputs satisfies the contract. *)
Lemma constant_runtime_ok (u : Q) :
  (0 <= u)%Q -> (u < 1)%Q -> runtime_ok (constant_runtime u).
Proof.
  intros H0 H1. split; cbn.
  - intros _ lo hi H. exists lo. split; [reflexivity | lia].
  - intros _. now split.
  - intros x y H. exact H.
  - intros z. reflexivity.
Qed.

(** The constants of a trial, when [randomInt] returns both heights. *)
Lemma sample_heights_returns rtm lr rr J hl hr :
  randomInt rtm 0 (fst lr) (snd lr) = Returns hl ->
  randomInt rtm 1 (fst rr) (snd rr) = Returns hr ->
  sample_heights rtm lr rr J
  = Returns {| Stim.left_height := hl;
               Stim.right_height := hr;
               Stim.left_jitter := jitter_sample rtm 0 J;
               Stim.right_jitter := jitter_sample rtm 1 J;
               Stim.final_left := number_add rtm hl (jitter_sample rtm 0 J);
               Stim.final_right := number_add rtm hr (jitter_sample rtm 1 J) |}.
Proof.
  intros Hl Hr. unfold sample_heights. rewrite Hl. cbn [bind].
  rewrite Hr. reflexivity.
Qed.

(** Sampling fails only where [randomInt] does. *)
Lemma sample_heights_throws rtm lr rr J msg :
  sample_heights rtm lr rr J = Throws msg ->
  randomInt rtm 0 (fst lr) (snd lr) = Throws msg
  \/ randomInt rtm 1 (fst rr) (snd rr) = Throws msg.
Proof.
  unfold sample_heights.
  destruct (randomInt rtm 0 _ _) as [hl|m]; cbn [bind];
    [|intros [= ->]; now left].
  destruct (randomInt rtm 1 _ _) as [hr|m]; cbn [bind]; [discriminate|].
  intros [= ->]. now right.
Qed.

(** Whatever sampling returns is built from the two heights as the source
    builds it. *)
Lemma sample_heights_inv rtm lr rr J c :
  sample_heights rtm lr rr J = Returns c ->
  randomInt rtm 0 (fst lr) (snd lr) = Returns (Stim.left_height c)
  /\ randomInt rtm 1 (fst rr) (snd rr) = Returns (Stim.right_height c)
  /\ Stim.left_jitter c = jitter_sample rtm 0 J
  /\ Stim.right_jitter c = jitter_sample rtm 1 J
  /\ Stim.final_left c = number_add rtm (Stim.left_height c) (Stim.left_jitter c)
  /\ Stim.final_right c
     = number_add rtm (Stim.right_height c) (Stim.right_jitter c).
Proof.
  unfold sample_heights.
  destruct (randomInt rtm 0 _ _) as [hl|m]; cbn [bind]; [|discriminate].
  destruct (randomInt rtm 1 _ _) as [hr|m]; cbn [bind]; [|discriminate].
  intros [= <-]. cbn. repeat split.
Qed.

(** ** Comparisons *)
(** [===] on a key name and an element of [choices]. *)
Lemma strict_eq_true k v : strict_eq k v = true <-> v = Some k.
Proof.
  destruct v as [s|]; cbn; [|split; discriminate].
  rewrite String.eqb_eq. split; [now intros -> | now intros [= ->]].
Qed.

(** ** The trace machine, for any pair of callbacks *)

(** A session awaits with the response and the listener it has. *)
Lemma awaiting_eta {D : Type} (s : session D) :
  awaiting s (response s) (listening s) = s.
Proof. now destruct s. Qed.

Section Trace.
Context {D : Type}.
Variables (after_response : KeyInfo.t -> session D -> session D)
          (end_trial : session D -> session D).

(** No event acts on a quiescent session. *)
Lemma quiescent_deliver (e : event) (s : session D) :
  quiescent s -> deliver after_response end_trial e s = s.
Proof.
  intros [Hl Ht]. destruct e; cbv [deliver]; [rewrite Hl | rewrite Ht];
    reflexivity.
Qed.

Lemma quiescent_run (evs : list event) : forall s : session D,
  quiescent s ->
  fold_left (fun s e => deliver after_response end_trial e s) evs s = s.
Proof.
  induction evs as [|e evs IH]; intros s Hs; simpl.
  - reflexivity.
  - rewrite (quiescent_deliver e s Hs). now apply IH.
Qed.

Variables (registered : bool) (duration : option Z) (ends : bool).
Variables (start : session D) (reported : Response.t -> list D).

Hypothesis start_finished : finished start = [].
Hypothesis start_listener :
  keyboardListener start = if registered then Some tt else None.
Hypothesis start_timeouts :
  timeouts start = match duration with Some ms => [ms] | None => [] end.
Hypothesis end_trial_finished : forall s,
  finished (end_trial s) = finished s ++ reported (response s).
Hypothesis end_trial_quiescent : forall s,
  (listening s = true -> keyboardListener s <> None) ->
  quiescent (end_trial s).
Hypothesis after_response_eq : forall info s,
  after_response info s
  = let s' := match Response.key (response s) with
              | None => set_response (Response.of_info info) s
              | Some _ => s
              end in
    if ends then end_trial s' else s'.

(** Once [end_trial] has run on a session without records, the record it
    reported is the only one, whatever follows. *)
Lemma resolve_run (evs : list event) (s : session D) :
  finished s = [] ->
  (listening s = true -> keyboardListener s <> None) ->
  let s' := fold_left (fun s e => deliver after_response end_trial e s) evs
              (end_trial s) in
  s' = end_trial s /\ finished s' = reported (response s) /\ quiescent s'.
Proof.
  intros Hf Hl. cbv zeta.
  assert (Hq := end_trial_quiescent s Hl).
  rewrite (quiescent_run evs _ Hq).
  repeat split; try apply Hq.
  now rewrite end_trial_finished, Hf.
Qed.

(** The three moves of an unresolved session. *)
Lemma deliver_key_live (info : KeyInfo.t) (r : Response.t) :
  Response.key r = None ->
  deliver after_response end_trial (KeyCaptured info) (awaiting start r true)
  = if ends
    then end_trial (awaiting start (Response.of_info info) false)
    else awaiting start (Response.of_info info) false.
Proof.
  intros Hkey. cbn. rewrite after_response_eq. cbn. rewrite Hkey.
  reflexivity.
Qed.

Lemma deliver_key_dead (info : KeyInfo.t) (r : Response.t) :
  deliver after_response end_trial (KeyCaptured info) (awaiting start r false)
  = awaiting start r false.
Proof. reflexivity. Qed.

Lemma deliver_expired (r : Response.t) (l : bool) :
  deliver after_response end_trial Expired (awaiting start r l)
  = match duration with
    | Some _ => end_trial (set_timeouts [] (awaiting start r l))
    | None => awaiting start r l
    end.
Proof.
  cbn. rewrite start_timeouts. destruct duration; reflexivity.
Qed.

(** A run from an unresolved session either resolves it with the response
    [outcome] computes, or leaves it unresolved. *)
Lemma run_awaiting (evs : list event) : forall r l,
  (l = true -> registered = true /\ Response.key r = None) ->
  let s := fold_left (fun s e => deliver after_response end_trial e s) evs
             (awaiting start r l) in
  match outcome duration ends r l evs with
  | Some r' => finished s = reported r' /\ quiescent s
  | None => exists r' l', s = awaiting start r' l'
  end.
Proof.
  induction evs as [|e evs IH]; intros r l Hl; cbv zeta.
  - simpl. now exists r, l.
  - cbn [fold_left outcome]. destruct e as [info|].
    + destruct l.
      * destruct (Hl eq_refl) as [Hreg Hkey].
        rewrite (deliver_key_live info r Hkey).
        destruct ends.
        -- apply (resolve_run evs (awaiting start (Response.of_info info) false));
             [exact start_finished | discriminate].
        -- apply IH. discriminate.
      * rewrite deliver_key_dead. apply IH. discriminate.
    + rewrite deliver_expired. destruct duration as [ms|].
      * apply (resolve_run evs (set_timeouts [] (awaiting start r l))).
        -- exact start_finished.
        -- cbn. rewrite start_listener. intros ->.
           destruct (Hl eq_refl) as [-> _]. discriminate.
      * now apply IH.
Qed.

Hypothesis start_response : response start = no_response.
Hypothesis start_listening : listening start = registered.

(** The same from the start of the trial. *)
Lemma run_start (evs : list event) :
  let s := fold_left (fun s e => deliver after_response end_trial e s) evs
             start in
  match outcome duration ends no_response registered evs with
  | Some r => finished s = reported r /\ quiescent s
  | None => exists r l, s = awaiting start r l
  end.
Proof.
  assert (E : awaiting start no_response registered = start)
    by (rewrite <- start_response, <- start_listening; apply awaiting_eta).
  assert (H : registered = true ->
              registered = true /\ Response.key no_response = None)
    by now split.
  generalize (run_awaiting evs no_response registered H).
  rewrite E. trivial.
Qed.

End Trace.

(** With a dead listener the first expiry ends the trial. *)
Lemma run_unheard {D : Type} (after_response : KeyInfo.t -> session D -> session D)
    (end_trial : session D -> session D) (ms : Z) (evs : list event) :
  forall s : session D,
  listening s = false -> timeouts s = [ms] ->
  quiescent (end_trial (set_timeouts [] s)) ->
  In Expired evs ->
  fold_left (fun s e => deliver after_response end_trial e s) evs s
  = end_trial (set_timeouts [] s).
Proof.
  induction evs as [|e evs IH]; intros s Hl Ht Hq Hin; [destruct Hin|].
  cbn [fold_left]. destruct e as [info|].
  - cbn [deliver]. rewrite Hl. apply IH; auto.
    destruct Hin as [Hin|Hin]; [discriminate | exact Hin].
  - cbn [deliver]. rewrite Ht. now apply quiescent_run.
Qed.

(** ** Facts about [outcome] *)

(** A trace resolves the trial exactly when one of its events does. *)
Lemma outcome_resolves registered duration ends evs : forall r l,
  (ends = true -> l = registered) ->
  (l = true -> registered = true) ->
  outcome duration ends r l evs <> None
  <-> existsb (resolves registered duration ends) evs = true.
Proof.
  induction evs as [|e evs IH]; intros r l He Hl; cbn [outcome existsb].
  - split; [congruence | discriminate].
  - destruct e as [info|]; cbn [resolves].
    + destruct l.
      * assert (Hreg : registered = true) by auto. subst registered.
        destruct ends; cbn [andb orb].
        -- split; [reflexivity | discriminate].
        -- apply IH; discriminate.
      * destruct ends.
        -- assert (Hreg : registered = false) by (symmetry; auto).
           subst registered. cbn [andb orb]. now apply IH.
        -- rewrite andb_false_r. cbn [orb]. now apply IH.
    + destruct duration; cbn [orb].
      * split; [reflexivity | discriminate].
      * now apply IH.
Qed.

(** Without a captured key press, the first expiry resolves the trial with
    the response held. *)
Lemma outcome_unanswered duration ends evs : forall r l,
  (l = true -> forall info, ~ In (KeyCaptured info) evs) ->
  duration <> None -> In Expired evs ->
  outcome duration ends r l evs = Some r.
Proof.
  induction evs as [|e evs IH]; intros r l Hk Hd Hin; [destruct Hin|].
  destruct e as [info|]; cbn [outcome].
  - destruct l.
    + destruct (Hk eq_refl info). now left.
    + apply IH; [discriminate | exact Hd |].
      destruct Hin as [Hin|Hin]; [discriminate | exact Hin].
  - destruct duration; [reflexivity | now destruct Hd].
Qed.

(** Key presses after the first are ignored. *)
Lemma outcome_ignored duration r keys : forall later,
  outcome duration false r false (map KeyCaptured keys ++ later)
  = outcome duration false r false later.
Proof.
  induction keys as [|k keys IH]; intros later; [reflexivity|].
  cbn [map app outcome]. apply IH.
Qed.

(** With [response_ends_trial] false the first key press is kept until the
    expiry. *)
Lemma outcome_first_key ms info keys later :
  outcome (Some ms) false no_response true
    (KeyCaptured info :: map KeyCaptured keys) = None
  /\ outcome (Some ms) false no_response true
       ((KeyCaptured info :: map KeyCaptured keys) ++ Expired :: later)
     = Some (Response.of_info info).
Proof.
  cbn [outcome app]. split.
  - rewrite <- (app_nil_r (map KeyCaptured keys)). now rewrite outcome_ignored.
  - now rewrite outcome_ignored.
Qed.

Ltac start_cases start :=
  unfold start;
  match goal with
  | |- context [loose_neq ?c ?k] => destruct (loose_neq c k)
  end;
  match goal with
  | |- context [match ?d with Some _ => _ | None => _ end] => destruct d
  end;
  reflexivity.

(** ** The plain-bar plugin, trace by trace *)

(** The run of a trial, read off [outcome]. *)
Lemma bc_run_start trial c evs :
  let s := BarChoice.run trial c evs (BarChoice.start trial c) in
  match outcome (BarChoice.Params.trial_duration trial)
          (BarChoice.Params.response_ends_trial trial) no_response
          (loose_neq (BarChoice.Params.choices trial) "NO_KEYS") evs with
  | Some r => finished s = BarChoice.reported trial c r /\ quiescent s
  | None => exists r l, s = awaiting (BarChoice.start trial c) r l
  end.
Proof.
  apply (run_start (BarChoice.after_response trial c)
           (BarChoice.end_trial trial c)
           (loose_neq (BarChoice.Params.choices trial) "NO_KEYS")
           (BarChoice.Params.trial_duration trial)
           (BarChoice.Params.response_ends_trial trial)
           (BarChoice.start trial c) (BarChoice.reported trial c));
    try start_cases BarChoice.start.
  - intros [r [u|] l tm h f cs]; reflexivity.
  - intros [r [u|] l tm h f cs]; cbn; intros H; split; auto.
    destruct l; auto. now destruct H.
  - reflexivity.
Qed.

(** The one record [end_trial] reports, field by field. *)
Lemma bc_reported trial c r :
  exists d, BarChoice.reported trial c r = [d]
    /\ BarChoice.trial_data.rt d = Response.rt r
    /\ BarChoice.trial_data.key d = Response.key r
    /\ BarChoice.trial_data.chosen_side d
       = match Response.key r with
         | Some k =>
             if strict_eq k (item (BarChoice.Params.choices trial) 0)
             then Some "left"
             else if strict_eq k (item (BarChoice.Params.choices trial) 1)
                  then Some "right" else None
         | None => None
         end
    /\ BarChoice.trial_data.correct_side d = BarChoice.Params.correct_side trial
    /\ BarChoice.trial_data.accuracy d
       = match BarChoice.Params.correct_side trial,
               BarChoice.trial_data.chosen_side d with
         | Some correct, Some chosen =>
             Some (if String.eqb chosen correct then 1 else 0)
         | _, _ => None
         end
    /\ BarChoice.trial_data.final_left d = Stim.final_left c
    /\ BarChoice.trial_data.final_right d = Stim.final_right c
    /\ BarChoice.trial_data.left_jitter d = Stim.left_jitter c
    /\ BarChoice.trial_data.right_jitter d = Stim.right_jitter c.
Proof.
  eexists. split; [reflexivity|]. cbn. repeat split.
Qed.

(** Every record a run has reported is the record of its outcome. *)
Lemma bc_emitted trial c evs d :
  In d (finished (BarChoice.run trial c evs (BarChoice.start trial c))) ->
  exists r,
    outcome (BarChoice.Params.trial_duration trial)
      (BarChoice.Params.response_ends_trial trial) no_response
      (loose_neq (BarChoice.Params.choices trial) "NO_KEYS") evs = Some r
    /\ BarChoice.reported trial c r = [d].
Proof.
  intros Hin. generalize (bc_run_start trial c evs). cbv zeta.
  destruct (outcome _ _ _ _ evs) as [r|].
  - intros [Hf _]. exists r. split; [reflexivity|].
    rewrite Hf in Hin. destruct (bc_reported trial c r) as (d' & E & _).
    rewrite E in *. destruct Hin as [->|[]]. reflexivity.
  - intros (r & l & E). rewrite E in Hin. exfalso. revert Hin.
    unfold BarChoice.start.
    destruct (loose_neq _ _), (BarChoice.Params.trial_duration trial);
      intros [].
Qed.

(** ** The image-overlay plugin, trace by trace *)

(** The run of a trial, read off [outcome]. *)
Lemma bic_run_start trial c evs :
  let s := BarImageChoice.run trial c evs (BarImageChoice.start trial c) in
  match outcome (BarImageChoice.Params.trial_duration trial)
          (BarImageChoice.Params.response_ends_trial trial) no_response
          (loose_neq (BarImageChoice.Params.choices trial) "NO_KEYS") evs with
  | Some r => finished s = BarImageChoice.reported trial c r /\ quiescent s
  | None => exists r l, s = awaiting (BarImageChoice.start trial c) r l
  end.
Proof.
  apply (run_start (BarImageChoice.after_response trial c)
           (BarImageChoice.end_trial trial c)
           (loose_neq (BarImageChoice.Params.choices trial) "NO_KEYS")
           (BarImageChoice.Params.trial_duration trial)
           (BarImageChoice.Params.response_ends_trial trial)
           (BarImageChoice.start trial c) (BarImageChoice.reported trial c));
    try start_cases BarImageChoice.start.
  - intros [r [u|] l tm h f cs]; reflexivity.
  - intros [r [u|] l tm h f cs]; cbn; intros H; split; auto.
    destruct l; auto. now destruct H.
  - reflexivity.
Qed.

(** The one record [end_trial] reports, field by field. *)
Lemma bic_reported trial c r :
  exists d, BarImageChoice.reported trial c r = [d]
    /\ BarImageChoice.trial_data.rt d = Response.rt r
    /\ BarImageChoice.trial_data.key d = Response.key r
    /\ BarImageChoice.trial_data.chosen_side d
       = match Response.key r with
         | Some k =>
             if strict_eq k (item (BarImageChoice.Params.choices trial) 0)
             then Some "left"
             else if strict_eq k (item (BarImageChoice.Params.choices trial) 1)
                  then Some "right" else None
         | None => None
         end
    /\ BarImageChoice.trial_data.correct_side d = BarImageChoice.Params.correct_side trial
    /\ BarImageChoice.trial_data.accuracy d
       = match BarImageChoice.Params.correct_side trial,
               BarImageChoice.trial_data.chosen_side d with
         | Some correct, Some chosen =>
             Some (if String.eqb chosen correct then 1 else 0)
         | _, _ => None
         end
    /\ BarImageChoice.trial_data.final_left d = Stim.final_left c
    /\ BarImageChoice.trial_data.final_right d = Stim.final_right c
    /\ BarImageChoice.trial_data.left_jitter d = Stim.left_jitter c
    /\ BarImageChoice.trial_data.right_jitter d = Stim.right_jitter c.
Proof.
  eexists. split; [reflexivity|]. cbn. repeat split.
Qed.

(** Every record a run has reported is the record of its outcome. *)
Lemma bic_emitted trial c evs d :
  In d (finished (BarImageChoice.run trial c evs (BarImageChoice.start trial c))) ->
  exists r,
    outcome (BarImageChoice.Params.trial_duration trial)
      (BarImageChoice.Params.response_ends_trial trial) no_response
      (loose_neq (BarImageChoice.Params.choices trial) "NO_KEYS") evs = Some r
    /\ BarImageChoice.reported trial c r = [d].
Proof.
  intros Hin. generalize (bic_run_start trial c evs). cbv zeta.
  destruct (outcome _ _ _ _ evs) as [r|].
  - intros [Hf _]. exists r. split; [reflexivity|].
    rewrite Hf in Hin. destruct (bic_reported trial c r) as (d' & E & _).
    rewrite E in *. destruct Hin as [->|[]]. reflexivity.
  - intros (r & l & E). rewrite E in Hin. exfalso. revert Hin.
    unfold BarImageChoice.start.
    destruct (loose_neq _ _), (BarImageChoice.Params.trial_duration trial);
      intros [].
Qed.

(** [end_trial] carries no guard of its own: run twice on the same session
    it reports twice.  What keeps a trial from reporting twice is that it
    cancels the timeout and the listener, so that the host has nothing
    left to run. *)
Remark end_trial_twice trial c (s : BarChoice.session) :
  length (finished (BarChoice.end_trial trial c (BarChoice.end_trial trial c s)))
  = S (S (length (finished s))).
Proof.
  destruct s as [r [u|] l tm h f cs]; cbn; rewrite !length_app; cbn; lia.
Qed.

(** ** The two plugins step together *)

Section Simulation.
Variables (p : BarChoice.Params.t) (q : BarImageChoice.Params.t) (c : Stim.t).
Hypothesis same : same_engine p q.

Ltac alike_records s t :=
  destruct s, t;
  unfold alike, map_finished, set_response, set_listening, set_timeouts in *;
  cbn in *; congruence.

(** Each closure, and then each event, keeps alike sessions alike. *)
Lemma alike_end_trial s t :
  alike s t ->
  alike (BarChoice.end_trial p c s) (BarImageChoice.end_trial q c t).
Proof.
  destruct same as (_ & _ & _ & Hch & Hcs & _ & _).
  destruct s as [r1 k1 l1 tm1 h1 f1 cs1], t as [r2 k2 l2 tm2 h2 f2 cs2].
  unfold alike, map_finished. cbn. intros [= -> -> -> -> -> Hf ->].
  unfold BarChoice.end_trial, BarImageChoice.end_trial, map_finished.
  rewrite <- Hch, <- Hcs.
  destruct k2; cbn; rewrite !map_app, Hf; reflexivity.
Qed.

Lemma alike_after_response info s t :
  alike s t ->
  alike (BarChoice.after_response p c info s)
        (BarImageChoice.after_response q c info t).
Proof.
  intros H. unfold BarChoice.after_response, BarImageChoice.after_response.
  destruct same as (_ & _ & _ & _ & _ & _ & <-).
  assert (Hr : response s = response t)
    by (apply (f_equal response) in H; exact H).
  rewrite <- Hr.
  assert (H' : alike
                 match Response.key (response s) with
                 | Some _ => s
                 | None => set_response (Response.of_info info) s
                 end
                 match Response.key (response s) with
                 | Some _ => t
                 | None => set_response (Response.of_info info) t
                 end).
  { destruct (Response.key (response s)); [exact H|].
    alike_records s t. }
  destruct (BarChoice.Params.response_ends_trial p);
    [now apply alike_end_trial | exact H'].
Qed.

Lemma alike_step e s t :
  alike s t -> alike (BarChoice.step p c e s) (BarImageChoice.step q c e t).
Proof.
  intros H. unfold BarChoice.step, BarImageChoice.step, deliver.
  assert (Hl : listening s = listening t)
    by (apply (f_equal listening) in H; exact H).
  assert (Ht : timeouts s = timeouts t)
    by (apply (f_equal timeouts) in H; exact H).
  destruct e as [info|].
  - rewrite <- Hl. destruct (listening s); [|exact H].
    apply alike_after_response.
    alike_records s t.
  - rewrite <- Ht. destruct (timeouts s) as [|ms rest]; [exact H|].
    apply alike_end_trial.
    alike_records s t.
Qed.

Lemma alike_run evs : forall s t,
  alike s t -> alike (BarChoice.run p c evs s) (BarImageChoice.run q c evs t).
Proof.
  induction evs as [|e evs IH]; intros s t H; [exact H|].
  apply IH, alike_step, H.
Qed.

(** Both trials start alike. *)
Lemma alike_start : alike (BarChoice.start p c) (BarImageChoice.start q c).
Proof.
  destruct same as (_ & _ & _ & Hch & _ & Hd & _).
  unfold BarChoice.start, BarImageChoice.start. rewrite <- Hch, <- Hd.
  destruct (loose_neq _ _), (BarChoice.Params.trial_duration p); reflexivity.
Qed.

End Simulation.

(** * What a trial reports *)

Ltac side_cases k :=
  split; [|split]; split;
  try discriminate;
  try (intros _; exists k; repeat split; assumption);
  try (intros (?k' & [= <-] & ?H); tauto);
  try (intros ?H; destruct (H k eq_refl); tauto);
  try (intros _ ?k' [= <-]; tauto).

(** C1, as the code has it.  Whatever events fire, a trial reports at most
    one result.  It reports exactly one if and only if one of the events
    resolves it: an expiry when [trial_duration] is set, or an accepted key
    press when a listener is registered and [response_ends_trial] is true.
    Once it has reported, the listener and the timeouts are cancelled, and
    every later event leaves the session as it is. *)
Theorem at_most_one_result trial c evs :
  let s := BarChoice.run trial c evs (BarChoice.start trial c) in
  (length (finished s) <= 1)%nat
  /\ (length (finished s) = 1%nat
      <-> existsb (resolves (loose_neq (BarChoice.Params.choices trial) "NO_KEYS")
                     (BarChoice.Params.trial_duration trial)
                     (BarChoice.Params.response_ends_trial trial)) evs = true)
  /\ (finished s <> [] ->
      quiescent s /\ forall more, BarChoice.run trial c more s = s).
Proof.
  cbv zeta.
  generalize (bc_run_start trial c evs).
  generalize (outcome_resolves
                (loose_neq (BarChoice.Params.choices trial) "NO_KEYS")
                (BarChoice.Params.trial_duration trial)
                (BarChoice.Params.response_ends_trial trial) evs no_response
                (loose_neq (BarChoice.Params.choices trial) "NO_KEYS")
                (fun _ => eq_refl) (fun H => H)).
  cbv zeta. destruct (outcome _ _ _ _ evs) as [r|]; intros Hres Hrun.
  - destruct Hrun as [Hf Hq]. destruct (bc_reported trial c r) as (d & E & _).
    rewrite Hf, E. cbn [length]. repeat split; try lia.
    + intros _. apply Hres. discriminate.
    + exact (proj1 Hq).
    + exact (proj2 Hq).
    + intros more. apply (quiescent_run _ _ more _ Hq).
  - destruct Hrun as (r & l & E). rewrite E.
    assert (Hf : finished (awaiting (BarChoice.start trial c) r l) = [])
      by start_cases BarChoice.start.
    rewrite Hf. cbn [length]. repeat split; try lia; try congruence.
    intros H. apply Hres in H. congruence.
Qed.

(** A key press that ends the trial, then the expiry of its timeout. *)
Lemma at_most_one_result_witness :
  let s := BarChoice.run BarChoice.timed_trial sample_stim
             [press "f" 420; Expired]
             (BarChoice.start BarChoice.timed_trial sample_stim) in
  length (finished s) = 1%nat
  /\ forall more, BarChoice.run BarChoice.timed_trial sample_stim more s = s.
Proof.
  destruct (at_most_one_result BarChoice.timed_trial sample_stim
              [press "f" 420; Expired]) as (_ & H1 & H2).
  split.
  - apply H1. reflexivity.
  - apply H2. vm_compute. discriminate.
Defined.

(** Without a limit and with [response_ends_trial] false, events fire and
    nothing is reported. *)
Lemma endless_trial_reports_nothing :
  length (finished
            (BarChoice.run BarChoice.endless_trial sample_stim
               [press "f" 420; Expired; press "j" 900]
               (BarChoice.start BarChoice.endless_trial sample_stim)))
  <> 1%nat.
Proof. vm_compute. discriminate. Qed.

(** C2, as the code has it.  In every reported record, [chosen_side] is
    "left" if and only if the captured key equals [choices[0]]; it is
    "right" if and only if the key equals [choices[1]] and does not equal
    [choices[0]]; it is [null] otherwise, in particular when no key was
    captured. *)
Theorem chosen_side_of_key trial c evs d :
  In d (finished (BarChoice.run trial c evs (BarChoice.start trial c))) ->
  let choices := BarChoice.Params.choices trial in
  let key := BarChoice.trial_data.key d in
  let chosen_side := BarChoice.trial_data.chosen_side d in
  (chosen_side = Some "left"
   <-> exists k, key = Some k /\ item choices 0 = Some k)
  /\ (chosen_side = Some "right"
      <-> exists k, key = Some k /\ item choices 1 = Some k
                    /\ item choices 0 <> Some k)
  /\ (chosen_side = None
      <-> forall k, key = Some k ->
                    item choices 0 <> Some k /\ item choices 1 <> Some k).
Proof.
  intros Hin. destruct (bc_emitted trial c evs d Hin) as (r & _ & Hrep).
  destruct (bc_reported trial c r) as (d' & E & _ & Hkey & Hside & _).
  rewrite E in Hrep. injection Hrep as ->. cbv zeta.
  rewrite Hside, Hkey. clear.
  destruct (Response.key r) as [k|].
  - destruct (strict_eq k (item (BarChoice.Params.choices trial) 0)) eqn:E0;
      [|destruct (strict_eq k (item (BarChoice.Params.choices trial) 1)) eqn:E1].
    + apply strict_eq_true in E0. side_cases k.
    + apply strict_eq_true in E1.
      assert (N0 : item (BarChoice.Params.choices trial) 0 <> Some k)
        by (intros H; apply strict_eq_true in H; congruence).
      side_cases k.
    + assert (N0 : item (BarChoice.Params.choices trial) 0 <> Some k)
        by (intros H; apply strict_eq_true in H; congruence).
      assert (N1 : item (BarChoice.Params.choices trial) 1 <> Some k)
        by (intros H; apply strict_eq_true in H; congruence).
      side_cases k.
  - split; [|split]; split; try discriminate;
      try (intros (k & H & _); discriminate); try reflexivity.
Qed.

(** The key "j" of the default choices. *)
Lemma chosen_side_of_key_witness :
  exists d,
    In d (finished
            (BarChoice.run BarChoice.timed_trial sample_stim [press "j" 500]
               (BarChoice.start BarChoice.timed_trial sample_stim)))
    /\ (BarChoice.trial_data.chosen_side d = Some "right"
        <-> exists k,
              BarChoice.trial_data.key d = Some k
              /\ item (BarChoice.Params.choices BarChoice.timed_trial) 1
                 = Some k
              /\ item (BarChoice.Params.choices BarChoice.timed_trial) 0
                 <> Some k).
Proof.
  eexists. split.
  - vm_compute. left. reflexivity.
  - apply (chosen_side_of_key BarChoice.timed_trial sample_stim
             [press "j" 500]).
    vm_compute. left. reflexivity.
Defined.

(** With the same key on both sides, the key equals [choices[1]] and the
    side is not "right". *)
Lemma twin_key_is_left :
  exists d,
    In d (finished
            (BarChoice.run BarChoice.twin_trial sample_stim [press "f" 420]
               (BarChoice.start BarChoice.twin_trial sample_stim)))
    /\ BarChoice.trial_data.key d
       = item (BarChoice.Params.choices BarChoice.twin_trial) 1
    /\ BarChoice.trial_data.key d = Some "f"
    /\ BarChoice.trial_data.chosen_side d <> Some "right".
Proof.
  eexists. split; [vm_compute; left; reflexivity|].
  repeat split. discriminate.
Qed.

(** C3.  In every reported record, [correct_side] is the trial's;
    [accuracy] is 1, 0 or [null]; it is defined if and only if both
    [correct_side] and [chosen_side] are present; and when both are
    present it is 1 if and only if they are equal, 0 if and only if they
    differ. *)
Theorem accuracy_defined trial c evs d :
  In d (finished (BarChoice.run trial c evs (BarChoice.start trial c))) ->
  let correct_side := BarChoice.trial_data.correct_side d in
  let chosen_side := BarChoice.trial_data.chosen_side d in
  let accuracy := BarChoice.trial_data.accuracy d in
  correct_side = BarChoice.Params.correct_side trial
  /\ (accuracy = Some 1 \/ accuracy = Some 0 \/ accuracy = None)
  /\ (accuracy <> None <-> correct_side <> None /\ chosen_side <> None)
  /\ (forall correct chosen,
        correct_side = Some correct -> chosen_side = Some chosen ->
        (accuracy = Some 1 <-> chosen = correct)
        /\ (accuracy = Some 0 <-> chosen <> correct)).
Proof.
  intros Hin. destruct (bc_emitted trial c evs d Hin) as (r & _ & Hrep).
  destruct (bc_reported trial c r) as (d' & E & _ & _ & _ & Hcor & Hacc & _).
  rewrite E in Hrep. injection Hrep as ->. cbv zeta.
  rewrite Hacc, Hcor. clear.
  destruct (BarChoice.Params.correct_side trial) as [correct|],
           (BarChoice.trial_data.chosen_side d) as [chosen|].
  all: try destruct (String.eqb_spec chosen correct) as [->|N].
  all: split; [reflexivity|]; split; [auto|]; split; [intuition congruence|].
  all: intros ? ? H1 H2; try discriminate.
  all: injection H1 as <-; injection H2 as <-; intuition congruence.
Qed.

(** A wrong answer scores 0. *)
Lemma accuracy_defined_witness :
  exists d,
    In d (finished
            (BarChoice.run BarChoice.timed_trial sample_stim [press "j" 500]
               (BarChoice.start BarChoice.timed_trial sample_stim)))
    /\ BarChoice.trial_data.accuracy d = Some 0
    /\ (BarChoice.trial_data.accuracy d <> None
        <-> BarChoice.trial_data.correct_side d <> None
            /\ BarChoice.trial_data.chosen_side d <> None).
Proof.
  eexists. split; [vm_compute; left; reflexivity|].
  split; [reflexivity|].
  apply (accuracy_defined BarChoice.timed_trial sample_stim [press "j" 500]).
  vm_compute. left. reflexivity.
Defined.

(** C4, as the code has it.  [trial] checks nothing.  The only failure at
    its start is one thrown by the host's [randomInt], before any listener
    or timeout exists; as soon as [randomInt] returns the two heights the
    trial starts, whatever [jitter] and [choices] are: the jitter is
    sampled with the bound as given, the listener is registered unless
    [choices] compares equal to "NO_KEYS", and the timeout is set if
    [trial_duration] is. *)
Theorem trial_starts_unvalidated rtm trial :
  let left_range := BarChoice.Params.left_height_range trial in
  let right_range := BarChoice.Params.right_height_range trial in
  (forall msg,
     BarChoice.trial rtm trial = Throws msg ->
     randomInt rtm 0 (fst left_range) (snd left_range) = Throws msg
     \/ randomInt rtm 1 (fst right_range) (snd right_range) = Throws msg)
  /\ (forall hl hr,
        randomInt rtm 0 (fst left_range) (snd left_range) = Returns hl ->
        randomInt rtm 1 (fst right_range) (snd right_range) = Returns hr ->
        exists c,
          BarChoice.trial rtm trial = Returns (BarChoice.start trial c)
          /\ Stim.left_jitter c = jitter_sample rtm 0 (BarChoice.Params.jitter trial)
          /\ Stim.right_jitter c = jitter_sample rtm 1 (BarChoice.Params.jitter trial)
          /\ listening (BarChoice.start trial c)
             = loose_neq (BarChoice.Params.choices trial) "NO_KEYS"
          /\ timeouts (BarChoice.start trial c)
             = match BarChoice.Params.trial_duration trial with
               | Some ms => [ms]
               | None => []
               end).
Proof.
  cbv zeta. split.
  - intros msg. unfold BarChoice.trial.
    destruct (sample_heights rtm _ _ _) as [c|m] eqn:E; cbn [bind];
      [discriminate|].
    intros [= ->]. exact (sample_heights_throws _ _ _ _ _ E).
  - intros hl hr El Er. eexists. split.
    { unfold BarChoice.trial.
      rewrite (sample_heights_returns rtm _ _ _ hl hr El Er). reflexivity. }
    repeat split; try start_cases BarChoice.start.
Qed.

(** The malformed trial starts. *)
Lemma trial_starts_unvalidated_witness :
  exists c,
    BarChoice.trial (constant_runtime (3 # 4)) BarChoice.malformed_trial
    = Returns (BarChoice.start BarChoice.malformed_trial c)
    /\ Stim.left_jitter c
       = jitter_sample (constant_runtime (3 # 4)) 0
           (BarChoice.Params.jitter BarChoice.malformed_trial)
    /\ Stim.right_jitter c
       = jitter_sample (constant_runtime (3 # 4)) 1
           (BarChoice.Params.jitter BarChoice.malformed_trial)
    /\ listening (BarChoice.start BarChoice.malformed_trial c)
       = loose_neq (BarChoice.Params.choices BarChoice.malformed_trial)
           "NO_KEYS"
    /\ timeouts (BarChoice.start BarChoice.malformed_trial c)
       = match BarChoice.Params.trial_duration BarChoice.malformed_trial with
         | Some ms => [ms]
         | None => []
         end.
Proof.
  apply (proj2 (trial_starts_unvalidated (constant_runtime (3 # 4))
                  BarChoice.malformed_trial) 50 50); reflexivity.
Defined.

(** A negative jitter bound and a single choice: the trial starts, the
    listener and the timeout are registered, the bars are rendered. *)
Lemma malformed_trial_starts :
  BarChoice.Params.jitter BarChoice.malformed_trial < 0
  /\ BarChoice.Params.choices BarChoice.malformed_trial = KeyArray ["f"]
  /\ exists s,
       BarChoice.trial (constant_runtime (3 # 4)) BarChoice.malformed_trial
       = Returns s
       /\ listening s = true /\ timeouts s = [2000]
       /\ calls s = [getKeyboardResponse_call; setTimeout_call 2000]
       /\ innerHTML s = Some (48, 48).
Proof.
  split; [reflexivity|]. split; [reflexivity|].
  eexists. split; [vm_compute; reflexivity|]. repeat split.
Qed.

(** C5.  With [response_ends_trial] false, a [trial_duration] and a
    registered listener: after a key press, and however many more, nothing
    is reported; when the timeout expires, one record is reported and it
    carries the key and the reaction time of the first press.  Besides,
    [after_response] leaves a session that already holds a key as it
    is. *)
Theorem first_response_kept trial c ms info keys later :
  BarChoice.Params.response_ends_trial trial = false ->
  BarChoice.Params.trial_duration trial = Some ms ->
  loose_neq (BarChoice.Params.choices trial) "NO_KEYS" = true ->
  let before := KeyCaptured info :: map KeyCaptured keys in
  finished (BarChoice.run trial c before (BarChoice.start trial c)) = []
  /\ (exists d,
        finished (BarChoice.run trial c (before ++ Expired :: later)
                    (BarChoice.start trial c)) = [d]
        /\ BarChoice.trial_data.rt d = Some (KeyInfo.rt info)
        /\ BarChoice.trial_data.key d = Some (KeyInfo.key info))
  /\ (forall info' s,
        Response.key (response s) <> None ->
        BarChoice.after_response trial c info' s = s).
Proof.
  intros Hends Hdur Hreg. cbv zeta.
  destruct (outcome_first_key ms info keys later) as [Hnone Hsome].
  split; [|split].
  - generalize (bc_run_start trial c (KeyCaptured info :: map KeyCaptured keys)).
    cbv zeta. rewrite Hends, Hdur, Hreg, Hnone. intros (r & l & ->).
    start_cases BarChoice.start.
  - generalize (bc_run_start trial c
                  ((KeyCaptured info :: map KeyCaptured keys) ++ Expired :: later)).
    cbv zeta. rewrite Hends, Hdur, Hreg, Hsome. intros [-> _].
    destruct (bc_reported trial c (Response.of_info info))
      as (d & E & Hrt & Hkey & _).
    exists d. now rewrite E, Hrt, Hkey.
  - intros info' s Hkey. unfold BarChoice.after_response. rewrite Hends.
    destruct (Response.key (response s)); [reflexivity | now destruct Hkey].
Qed.

(** Two key presses, the expiry, and a late key press. *)
Lemma first_response_kept_witness :
  let before := [press "f" 420; press "j" 900] in
  finished (BarChoice.run BarChoice.patient_trial sample_stim before
              (BarChoice.start BarChoice.patient_trial sample_stim)) = []
  /\ exists d,
       finished (BarChoice.run BarChoice.patient_trial sample_stim
                   (before ++ [Expired; press "j" 2100])
                   (BarChoice.start BarChoice.patient_trial sample_stim))
       = [d]
       /\ BarChoice.trial_data.rt d = Some 420
       /\ BarChoice.trial_data.key d = Some "f".
Proof.
  destruct (first_response_kept BarChoice.patient_trial sample_stim 2000
              {| KeyInfo.key := "f"; KeyInfo.rt := 420 |}
              [{| KeyInfo.key := "j"; KeyInfo.rt := 900 |}]
              [press "j" 2100] eq_refl eq_refl eq_refl) as (H1 & H2 & _).
  split; [exact H1 | exact H2].
Defined.

(** C6, as the code has it.  Under the contract binary64 arithmetic meets
    and with a jitter bound [J >= 0] (zero included): when both ranges are
    in order ([lo <= hi], equality included) [trial] starts; whenever it
    starts, each height is the integer [randomInt] returned, each jitter
    is [Math.round((Math.random() * 2 - 1) * J)], and every reported
    record carries the final heights and jitters computed at the start;
    and for a range in order whose [lo - J] and [hi + J] are at most
    [2^53] in magnitude, the reported final height is the height plus the
    jitter and lies in [[lo - J, hi + J]]. *)
Theorem final_heights_in_safe_range rtm trial :
  let lo_l := fst (BarChoice.Params.left_height_range trial) in
  let hi_l := snd (BarChoice.Params.left_height_range trial) in
  let lo_r := fst (BarChoice.Params.right_height_range trial) in
  let hi_r := snd (BarChoice.Params.right_height_range trial) in
  let J := BarChoice.Params.jitter trial in
  runtime_safe rtm -> 0 <= J ->
  (lo_l <= hi_l -> lo_r <= hi_r ->
   exists s, BarChoice.trial rtm trial = Returns s)
  /\ forall s,
       BarChoice.trial rtm trial = Returns s ->
       exists c,
         s = BarChoice.start trial c
         /\ randomInt rtm 0 lo_l hi_l = Returns (Stim.left_height c)
         /\ randomInt rtm 1 lo_r hi_r = Returns (Stim.right_height c)
         /\ Stim.left_jitter c
            = Math_round
                (fl rtm (fl rtm (fl rtm (Math_random rtm 0 * 2) - 1)
                         * inject_Z J))%Q
         /\ Stim.right_jitter c
            = Math_round
                (fl rtm (fl rtm (fl rtm (Math_random rtm 1 * 2) - 1)
                         * inject_Z J))%Q
         /\ forall evs d,
              In d (finished (BarChoice.run trial c evs s)) ->
              BarChoice.trial_data.final_left d = Stim.final_left c
              /\ BarChoice.trial_data.final_right d = Stim.final_right c
              /\ BarChoice.trial_data.left_jitter d = Stim.left_jitter c
              /\ BarChoice.trial_data.right_jitter d = Stim.right_jitter c
              /\ (lo_l <= hi_l -> - 2 ^ 53 <= lo_l - J -> hi_l + J <= 2 ^ 53 ->
                  BarChoice.trial_data.final_left d
                  = Stim.left_height c + Stim.left_jitter c
                  /\ lo_l - J <= BarChoice.trial_data.final_left d <= hi_l + J)
              /\ (lo_r <= hi_r -> - 2 ^ 53 <= lo_r - J -> hi_r + J <= 2 ^ 53 ->
                  BarChoice.trial_data.final_right d
                  = Stim.right_height c + Stim.right_jitter c
                  /\ lo_r - J <= BarChoice.trial_data.final_right d <= hi_r + J).
Proof.
  cbv zeta. intros Hok HJ. split.
  - intros Hl Hr.
    destruct (safe_randomInt_range rtm Hok 0%nat _ _ Hl) as (hl & El & _).
    destruct (safe_randomInt_range rtm Hok 1%nat _ _ Hr) as (hr & Er & _).
    eexists. unfold BarChoice.trial.
    rewrite (sample_heights_returns rtm _ _ _ hl hr El Er). reflexivity.
  - intros s. unfold BarChoice.trial.
    destruct (sample_heights rtm _ _ _) as [c|m] eqn:E; cbn [bind];
      [|discriminate].
    intros [= <-]. exists c.
    destruct (sample_heights_inv _ _ _ _ _ E) as (El & Er & Jl & Jr & Fl & Fr).
    repeat (split; [first [reflexivity | assumption]|]).
    intros evs d Hin.
    destruct (bc_emitted trial c evs d Hin) as (r & _ & Hrep).
    destruct (bc_reported trial c r)
      as (d' & E' & _ & _ & _ & _ & _ & H1 & H2 & H3 & H4).
    rewrite E' in Hrep. injection Hrep as ->.
    repeat (split; [assumption|]).
    split; intros Hrange Hlo Hhi.
    + destruct (safe_randomInt_range rtm Hok 0%nat _ _ Hrange)
        as (h & Eh & Bh).
      rewrite El in Eh. injection Eh as <-.
      assert (Bj := jitter_sample_bounds_safe rtm 0
                      (BarChoice.Params.jitter trial) Hok ltac:(lia)).
      rewrite <- Jl in Bj.
      rewrite H1, Fl, number_add_safe by (exact Hok || lia). lia.
    + destruct (safe_randomInt_range rtm Hok 1%nat _ _ Hrange)
        as (h & Eh & Bh).
      rewrite Er in Eh. injection Eh as <-.
      assert (Bj := jitter_sample_bounds_safe rtm 1
                      (BarChoice.Params.jitter trial) Hok ltac:(lia)).
      rewrite <- Jr in Bj.
      rewrite H2, Fr, number_add_safe by (exact Hok || lia). lia.
Qed.

(** The default ranges and bound, in binary64 arithmetic. *)
Lemma final_heights_in_safe_range_witness :
  (exists s,
     BarChoice.trial (binary64_runtime (3 # 4)) BarChoice.timed_trial
     = Returns s)
  /\ forall s,
       BarChoice.trial (binary64_runtime (3 # 4)) BarChoice.timed_trial
       = Returns s ->
       exists c,
         s = BarChoice.start BarChoice.timed_trial c
         /\ forall evs d,
              In d (finished (BarChoice.run BarChoice.timed_trial c evs s)) ->
              50 - 5 <= BarChoice.trial_data.final_left d <= 150 + 5
              /\ 50 - 5 <= BarChoice.trial_data.final_right d <= 150 + 5.
Proof.
  destruct (final_heights_in_safe_range (binary64_runtime (3 # 4))
              BarChoice.timed_trial) as [H1 H2].
  - apply binary64_runtime_safe; [discriminate | reflexivity].
  - cbn. lia.
  - split.
    + apply H1; cbn; lia.
    + intros s Hs.
      destruct (H2 s Hs) as (c & Hc & _ & _ & _ & _ & H).
      exists c. split; [exact Hc|]. intros evs d Hin.
      destruct (H evs d Hin) as (_ & _ & _ & _ & Hl & Hr).
      split; [apply Hl | apply Hr]; cbn; lia.
Defined.

(** Heights of 3 and a jitter bound of [2^53 + 6], with [Math.random()]
    returning 0 and binary64 arithmetic (which meets the contract of the
    theorem): the jitter is [-(2^53 + 6)], the
    exact sum [-(2^53 + 3)] is no binary64 number and is rounded to
    [-(2^53 + 4)], which is below [lo - J] and is not the height plus the
    jitter; it is the [final_left] the trial reports. *)
Lemma wide_jitter_leaves_range :
  let rtm := binary64_runtime 0 in
  let lo := fst (BarChoice.Params.left_height_range wide_jitter_trial) in
  let hi := snd (BarChoice.Params.left_height_range wide_jitter_trial) in
  let J := BarChoice.Params.jitter wide_jitter_trial in
  runtime_safe rtm
  /\ lo <= hi /\ 0 <= J
  /\ randomInt rtm 0 lo hi = Returns 3
  /\ (0 <= Math_random rtm 0)%Q /\ (Math_random rtm 0 < 1)%Q
  /\ BarChoice.trial rtm wide_jitter_trial
     = Returns (BarChoice.start wide_jitter_trial wide_jitter_stim)
  /\ Stim.left_height wide_jitter_stim = 3
  /\ Stim.left_jitter wide_jitter_stim = - (2 ^ 53 + 6)
  /\ exists d,
       finished (BarChoice.run wide_jitter_trial wide_jitter_stim [Expired]
                   (BarChoice.start wide_jitter_trial wide_jitter_stim)) = [d]
       /\ BarChoice.trial_data.final_left d = - (2 ^ 53 + 4)
       /\ BarChoice.trial_data.final_left d < lo - J
       /\ BarChoice.trial_data.final_left d
          <> Stim.left_height wide_jitter_stim
             + Stim.left_jitter wide_jitter_stim.
Proof.
  cbv zeta.
  split; [apply binary64_runtime_safe; [discriminate | reflexivity]|].
  split; [discriminate|]. split; [discriminate|].
  split; [reflexivity|]. split; [discriminate|]. split; [reflexivity|].
  split; [vm_compute; reflexivity|].
  split; [reflexivity|]. split; [reflexivity|].
  eexists. split; [vm_compute; reflexivity|].
  split; [reflexivity|]. split; [reflexivity | discriminate].
Qed.

(** C7, as the code has it.  With [choices] "NO_KEYS" and no
    [trial_duration], [trial] starts as soon as [randomInt] returns the
    heights, without any complaint: it makes no call of the plugin API,
    and no sequence of events changes the session, so that nothing is ever
    reported. *)
Theorem unresolvable_trial_is_silent rtm trial hl hr :
  let left_range := BarChoice.Params.left_height_range trial in
  let right_range := BarChoice.Params.right_height_range trial in
  BarChoice.Params.choices trial = KeyString "NO_KEYS" ->
  BarChoice.Params.trial_duration trial = None ->
  randomInt rtm 0 (fst left_range) (snd left_range) = Returns hl ->
  randomInt rtm 1 (fst right_range) (snd right_range) = Returns hr ->
  exists c,
    BarChoice.trial rtm trial = Returns (BarChoice.start trial c)
    /\ calls (BarChoice.start trial c) = []
    /\ finished (BarChoice.start trial c) = []
    /\ forall evs,
         BarChoice.run trial c evs (BarChoice.start trial c)
         = BarChoice.start trial c.
Proof.
  cbv zeta. intros Hc Hd El Er. eexists. split.
  { unfold BarChoice.trial.
    rewrite (sample_heights_returns rtm _ _ _ hl hr El Er). reflexivity. }
  unfold BarChoice.start. rewrite Hc, Hd. cbn [loose_neq].
  repeat split. intros evs. apply quiescent_run. now split.
Qed.

(** The trial without listener and limit. *)
Lemma unresolvable_trial_is_silent_witness :
  exists c,
    BarChoice.trial (constant_runtime (3 # 4)) BarChoice.silent_trial
    = Returns (BarChoice.start BarChoice.silent_trial c)
    /\ calls (BarChoice.start BarChoice.silent_trial c) = []
    /\ finished (BarChoice.start BarChoice.silent_trial c) = []
    /\ forall evs,
         BarChoice.run BarChoice.silent_trial c evs
           (BarChoice.start BarChoice.silent_trial c)
         = BarChoice.start BarChoice.silent_trial c.
Proof.
  apply (unresolvable_trial_is_silent (constant_runtime (3 # 4))
           BarChoice.silent_trial 50 50); reflexivity.
Defined.

(** The trial without listener and limit starts, calls nothing and
    reports nothing. *)
Lemma silent_trial_starts :
  BarChoice.Params.choices BarChoice.silent_trial = KeyString "NO_KEYS"
  /\ BarChoice.Params.trial_duration BarChoice.silent_trial = None
  /\ exists s,
       BarChoice.trial (constant_runtime (3 # 4)) BarChoice.silent_trial
       = Returns s
       /\ calls s = [] /\ listening s = false /\ timeouts s = []
       /\ finished
            (BarChoice.run BarChoice.silent_trial sample_stim
               [press "f" 420; Expired] s) = [].
Proof.
  split; [reflexivity|]. split; [reflexivity|].
  eexists. split; [vm_compute; reflexivity|]. repeat split.
Qed.

(** C8.  When the timeout expires and no key press was ever captured, the
    one record reported has [rt], [key], [chosen_side] and [accuracy] all
    [null]. *)
Theorem unanswered_trial_reports_null trial c evs :
  BarChoice.Params.trial_duration trial <> None ->
  In Expired evs ->
  (forall info, ~ In (KeyCaptured info) evs) ->
  exists d,
    finished (BarChoice.run trial c evs (BarChoice.start trial c)) = [d]
    /\ BarChoice.trial_data.rt d = None
    /\ BarChoice.trial_data.key d = None
    /\ BarChoice.trial_data.chosen_side d = None
    /\ BarChoice.trial_data.accuracy d = None.
Proof.
  intros Hdur Hexp Hkeys.
  generalize (bc_run_start trial c evs). cbv zeta.
  rewrite (outcome_unanswered _ _ evs no_response _ (fun _ => Hkeys) Hdur Hexp).
  intros [-> _].
  destruct (bc_reported trial c no_response)
    as (d & E & Hrt & Hkey & Hside & _ & Hacc & _).
  exists d. rewrite E, Hrt, Hkey, Hacc, Hside. cbn.
  repeat split. now destruct (BarChoice.Params.correct_side trial).
Qed.

(** The expiry alone. *)
Lemma unanswered_trial_reports_null_witness :
  exists d,
    finished (BarChoice.run BarChoice.timed_trial sample_stim [Expired]
                (BarChoice.start BarChoice.timed_trial sample_stim)) = [d]
    /\ BarChoice.trial_data.rt d = None
    /\ BarChoice.trial_data.key d = None
    /\ BarChoice.trial_data.chosen_side d = None
    /\ BarChoice.trial_data.accuracy d = None.
Proof.
  apply (unanswered_trial_reports_null BarChoice.timed_trial sample_stim
           [Expired]).
  - discriminate.
  - left. reflexivity.
  - intros info [H|[]]. discriminate.
Defined.

(** C9.  Given parameters that agree on the ranges, the jitter bound,
    [choices], [correct_side], [trial_duration] and [response_ends_trial],
    and the same runtime, the two plugins either both throw the same
    failure, or both start with the same sampled constants, and then,
    after any sequence of events, they have reported records that agree
    on [rt], [key], [chosen_side], [correct_side], [accuracy],
    [final_left], [final_right], [left_jitter] and [right_jitter], and
    their sessions agree on everything else. *)
Theorem variants_agree rtm p q :
  same_engine p q ->
  (exists c,
     BarChoice.trial rtm p = Returns (BarChoice.start p c)
     /\ BarImageChoice.trial rtm q = Returns (BarImageChoice.start q c)
     /\ forall evs,
          let s := BarChoice.run p c evs (BarChoice.start p c) in
          let t := BarImageChoice.run q c evs (BarImageChoice.start q c) in
          map BarChoice.core (finished s) = map BarImageChoice.core (finished t)
          /\ map_finished BarChoice.core s = map_finished BarImageChoice.core t)
  \/ (exists msg,
        BarChoice.trial rtm p = Throws msg
        /\ BarImageChoice.trial rtm q = Throws msg).
Proof.
  intros Hsame.
  assert (H := Hsame). destruct H as (Hl & Hr & Hj & _).
  unfold BarChoice.trial, BarImageChoice.trial. rewrite <- Hl, <- Hr, <- Hj.
  destruct (sample_heights rtm _ _ _) as [c|msg]; cbn [bind].
  - left. exists c. repeat split.
    + apply (f_equal finished (alike_run p q c Hsame evs _ _
                                 (alike_start p q c Hsame))).
    + apply (alike_run p q c Hsame evs _ _ (alike_start p q c Hsame)).
  - right. now exists msg.
Qed.

(** The default trial of each plugin. *)
Lemma variants_agree_witness :
  exists c,
    BarChoice.trial (constant_runtime (3 # 4)) BarChoice.timed_trial
    = Returns (BarChoice.start BarChoice.timed_trial c)
    /\ BarImageChoice.trial (constant_runtime (3 # 4))
         BarImageChoice.timed_trial
       = Returns (BarImageChoice.start BarImageChoice.timed_trial c)
    /\ map BarChoice.core
         (finished
            (BarChoice.run BarChoice.timed_trial c [press "j" 500; Expired]
               (BarChoice.start BarChoice.timed_trial c)))
       = map BarImageChoice.core
           (finished
              (BarImageChoice.run BarImageChoice.timed_trial c
                 [press "j" 500; Expired]
                 (BarImageChoice.start BarImageChoice.timed_trial c))).
Proof.
  destruct (variants_agree (constant_runtime (3 # 4)) BarChoice.timed_trial
              BarImageChoice.timed_trial) as [(c & H1 & H2 & H3)|(msg & H & _)].
  - repeat split.
  - exists c. split; [exact H1|]. split; [exact H2|].
    exact (proj1 (H3 [press "j" 500; Expired])).
  - discriminate H.
Defined.

(** C10.  With [choices] "NO_KEYS" and a [trial_duration], no listener is
    registered ([keyboardListener] stays [undefined]); when the timeout
    expires the trial clears the timeouts, skips the cancellation of the
    listener, and reports one record, whose response fields are
    [null]. *)
Theorem no_keys_expiry_completes trial c ms evs :
  BarChoice.Params.choices trial = KeyString "NO_KEYS" ->
  BarChoice.Params.trial_duration trial = Some ms ->
  let s0 := BarChoice.start trial c in
  keyboardListener s0 = None /\ listening s0 = false
  /\ calls s0 = [setTimeout_call ms]
  /\ (In Expired evs ->
      let s := BarChoice.run trial c evs s0 in
      calls s = [setTimeout_call ms; clearAllTimeouts_call; finishTrial_call]
      /\ exists d,
           finished s = [d]
           /\ BarChoice.trial_data.rt d = None
           /\ BarChoice.trial_data.key d = None
           /\ BarChoice.trial_data.chosen_side d = None
           /\ BarChoice.trial_data.accuracy d = None).
Proof.
  intros Hc Hd. cbv zeta.
  assert (E : BarChoice.start trial c
              = setTimeout ms
                  (set_innerHTML (Some (Stim.final_left c, Stim.final_right c))
                     fresh))
    by (unfold BarChoice.start; rewrite Hc, Hd; reflexivity).
  rewrite E. repeat split.
  all: assert (R : BarChoice.run trial c evs
                     (setTimeout ms
                        (set_innerHTML
                           (Some (Stim.final_left c, Stim.final_right c)) fresh))
                   = BarChoice.end_trial trial c
                       (set_timeouts []
                          (setTimeout ms
                             (set_innerHTML
                                (Some (Stim.final_left c, Stim.final_right c))
                                fresh))))
         by (apply (run_unheard _ _ ms evs); try reflexivity; try assumption;
             now split).
  all: rewrite R.
  - reflexivity.
  - eexists. split; [reflexivity|]. cbn. repeat split.
    now destruct (BarChoice.Params.correct_side trial).
Qed.

(** A key press nobody listens to, then the expiry. *)
Lemma no_keys_expiry_completes_witness :
  let s := BarChoice.run BarChoice.no_keys_trial sample_stim
             [press "f" 420; Expired]
             (BarChoice.start BarChoice.no_keys_trial sample_stim) in
  calls s = [setTimeout_call 2000; clearAllTimeouts_call; finishTrial_call]
  /\ exists d,
       finished s = [d]
       /\ BarChoice.trial_data.rt d = None
       /\ BarChoice.trial_data.key d = None
       /\ BarChoice.trial_data.chosen_side d = None
       /\ BarChoice.trial_data.accuracy d = None.
Proof.
  apply (no_keys_expiry_completes BarChoice.no_keys_trial sample_stim 2000
           [press "f" 420; Expired] eq_refl eq_refl).
  right. left. reflexivity.
Defined.

(** * The same, for the image-overlay plugin *)

(** At most one result, and when exactly one. *)
Theorem image_single_result trial c evs :
  let s := BarImageChoice.run trial c evs (BarImageChoice.start trial c) in
  (length (finished s) <= 1)%nat
  /\ (length (finished s) = 1%nat
      <-> existsb (resolves (loose_neq (BarImageChoice.Params.choices trial) "NO_KEYS")
                     (BarImageChoice.Params.trial_duration trial)
                     (BarImageChoice.Params.response_ends_trial trial)) evs = true)
  /\ (finished s <> [] ->
      quiescent s /\ forall more, BarImageChoice.run trial c more s = s).
Proof.
  cbv zeta.
  generalize (bic_run_start trial c evs).
  generalize (outcome_resolves
                (loose_neq (BarImageChoice.Params.choices trial) "NO_KEYS")
                (BarImageChoice.Params.trial_duration trial)
                (BarImageChoice.Params.response_ends_trial trial) evs no_response
                (loose_neq (BarImageChoice.Params.choices trial) "NO_KEYS")
                (fun _ => eq_refl) (fun H => H)).
  cbv zeta. destruct (outcome _ _ _ _ evs) as [r|]; intros Hres Hrun.
  - destruct Hrun as [Hf Hq]. destruct (bic_reported trial c r) as (d & E & _).
    rewrite Hf, E. cbn [length]. repeat split; try lia.
    + intros _. apply Hres. discriminate.
    + exact (proj1 Hq).
    + exact (proj2 Hq).
    + intros more. apply (quiescent_run _ _ more _ Hq).
  - destruct Hrun as (r & l & E). rewrite E.
    assert (Hf : finished (awaiting (BarImageChoice.start trial c) r l) = [])
      by start_cases BarImageChoice.start.
    rewrite Hf. cbn [length]. repeat split; try lia; try congruence.
    intros H. apply Hres in H. congruence.
Qed.

(** The side chosen, from the key captured. *)
Theorem image_side_from_key trial c evs d :
  In d (finished (BarImageChoice.run trial c evs (BarImageChoice.start trial c))) ->
  let choices := BarImageChoice.Params.choices trial in
  let key := BarImageChoice.trial_data.key d in
  let chosen_side := BarImageChoice.trial_data.chosen_side d in
  (chosen_side = Some "left"
   <-> exists k, key = Some k /\ item choices 0 = Some k)
  /\ (chosen_side = Some "right"
      <-> exists k, key = Some k /\ item choices 1 = Some k
                    /\ item choices 0 <> Some k)
  /\ (chosen_side = None
      <-> forall k, key = Some k ->
                    item choices 0 <> Some k /\ item choices 1 <> Some k).
Proof.
  intros Hin. destruct (bic_emitted trial c evs d Hin) as (r & _ & Hrep).
  destruct (bic_reported trial c r) as (d' & E & _ & Hkey & Hside & _).
  rewrite E in Hrep. injection Hrep as ->. cbv zeta.
  rewrite Hside, Hkey. clear.
  destruct (Response.key r) as [k|].
  - destruct (strict_eq k (item (BarImageChoice.Params.choices trial) 0)) eqn:E0;
      [|destruct (strict_eq k (item (BarImageChoice.Params.choices trial) 1)) eqn:E1].
    + apply strict_eq_true in E0. side_cases k.
    + apply strict_eq_true in E1.
      assert (N0 : item (BarImageChoice.Params.choices trial) 0 <> Some k)
        by (intros H; apply strict_eq_true in H; congruence).
      side_cases k.
    + assert (N0 : item (BarImageChoice.Params.choices trial) 0 <> Some k)
        by (intros H; apply strict_eq_true in H; congruence).
      assert (N1 : item (BarImageChoice.Params.choices trial) 1 <> Some k)
        by (intros H; apply strict_eq_true in H; congruence).
      side_cases k.
  - split; [|split]; split; try discriminate;
      try (intros (k & H & _); discriminate); try reflexivity.
Qed.

(** When the accuracy is defined, and its value. *)
Theorem image_accuracy_rule trial c evs d :
  In d (finished (BarImageChoice.run trial c evs (BarImageChoice.start trial c))) ->
  let correct_side := BarImageChoice.trial_data.correct_side d in
  let chosen_side := BarImageChoice.trial_data.chosen_side d in
  let accuracy := BarImageChoice.trial_data.accuracy d in
  correct_side = BarImageChoice.Params.correct_side trial
  /\ (accuracy = Some 1 \/ accuracy = Some 0 \/ accuracy = None)
  /\ (accuracy <> None <-> correct_side <> None /\ chosen_side <> None)
  /\ (forall correct chosen,
        correct_side = Some correct -> chosen_side = Some chosen ->
        (accuracy = Some 1 <-> chosen = correct)
        /\ (accuracy = Some 0 <-> chosen <> correct)).
Proof.
  intros Hin. destruct (bic_emitted trial c evs d Hin) as (r & _ & Hrep).
  destruct (bic_reported trial c r) as (d' & E & _ & _ & _ & Hcor & Hacc & _).
  rewrite E in Hrep. injection Hrep as ->. cbv zeta.
  rewrite Hacc, Hcor. clear.
  destruct (BarImageChoice.Params.correct_side trial) as [correct|],
           (BarImageChoice.trial_data.chosen_side d) as [chosen|].
  all: try destruct (String.eqb_spec chosen correct) as [->|N].
  all: split; [reflexivity|]; split; [auto|]; split; [intuition congruence|].
  all: intros ? ? H1 H2; try discriminate.
  all: injection H1 as <-; injection H2 as <-; intuition congruence.
Qed.

(** Nothing is checked at the start. *)
Theorem image_start_unchecked rtm trial :
  let left_range := BarImageChoice.Params.left_height_range trial in
  let right_range := BarImageChoice.Params.right_height_range trial in
  (forall msg,
     BarImageChoice.trial rtm trial = Throws msg ->
     randomInt rtm 0 (fst left_range) (snd left_range) = Throws msg
     \/ randomInt rtm 1 (fst right_range) (snd right_range) = Throws msg)
  /\ (forall hl hr,
        randomInt rtm 0 (fst left_range) (snd left_range) = Returns hl ->
        randomInt rtm 1 (fst right_range) (snd right_range) = Returns hr ->
        exists c,
          BarImageChoice.trial rtm trial = Returns (BarImageChoice.start trial c)
          /\ Stim.left_jitter c = jitter_sample rtm 0 (BarImageChoice.Params.jitter trial)
          /\ Stim.right_jitter c = jitter_sample rtm 1 (BarImageChoice.Params.jitter trial)
          /\ listening (BarImageChoice.start trial c)
             = loose_neq (BarImageChoice.Params.choices trial) "NO_KEYS"
          /\ timeouts (BarImageChoice.start trial c)
             = match BarImageChoice.Params.trial_duration trial with
               | Some ms => [ms]
               | None => []
               end).
Proof.
  cbv zeta. split.
  - intros msg. unfold BarImageChoice.trial.
    destruct (sample_heights rtm _ _ _) as [c|m] eqn:E; cbn [bind];
      [discriminate|].
    intros [= ->]. exact (sample_heights_throws _ _ _ _ _ E).
  - intros hl hr El Er. eexists. split.
    { unfold BarImageChoice.trial.
      rewrite (sample_heights_returns rtm _ _ _ hl hr El Er). reflexivity. }
    repeat split; try start_cases BarImageChoice.start.
Qed.

(** The first response is the one reported at the expiry. *)
Theorem image_first_response trial c ms info keys later :
  BarImageChoice.Params.response_ends_trial trial = false ->
  BarImageChoice.Params.trial_duration trial = Some ms ->
  loose_neq (BarImageChoice.Params.choices trial) "NO_KEYS" = true ->
  let before := KeyCaptured info :: map KeyCaptured keys in
  finished (BarImageChoice.run trial c before (BarImageChoice.start trial c)) = []
  /\ (exists d,
        finished (BarImageChoice.run trial c (before ++ Expired :: later)
                    (BarImageChoice.start trial c)) = [d]
        /\ BarImageChoice.trial_data.rt d = Some (KeyInfo.rt info)
        /\ BarImageChoice.trial_data.key d = Some (KeyInfo.key info))
  /\ (forall info' s,
        Response.key (response s) <> None ->
        BarImageChoice.after_response trial c info' s = s).
Proof.
  intros Hends Hdur Hreg. cbv zeta.
  destruct (outcome_first_key ms info keys later) as [Hnone Hsome].
  split; [|split].
  - generalize (bic_run_start trial c (KeyCaptured info :: map KeyCaptured keys)).
    cbv zeta. rewrite Hends, Hdur, Hreg, Hnone. intros (r & l & ->).
    start_cases BarImageChoice.start.
  - generalize (bic_run_start trial c
                  ((KeyCaptured info :: map KeyCaptured keys) ++ Expired :: later)).
    cbv zeta. rewrite Hends, Hdur, Hreg, Hsome. intros [-> _].
    destruct (bic_reported trial c (Response.of_info info))
      as (d & E & Hrt & Hkey & _).
    exists d. now rewrite E, Hrt, Hkey.
  - intros info' s Hkey. unfold BarImageChoice.after_response. rewrite Hends.
    destruct (Response.key (response s)); [reflexivity | now destruct Hkey].
Qed.

(** The final heights lie within the jittered ranges. *)
Theorem image_heights_bounded rtm trial :
  let lo_l := fst (BarImageChoice.Params.left_height_range trial) in
  let hi_l := snd (BarImageChoice.Params.left_height_range trial) in
  let lo_r := fst (BarImageChoice.Params.right_height_range trial) in
  let hi_r := snd (BarImageChoice.Params.right_height_range trial) in
  let J := BarImageChoice.Params.jitter trial in
  runtime_safe rtm -> 0 <= J ->
  (lo_l <= hi_l -> lo_r <= hi_r ->
   exists s, BarImageChoice.trial rtm trial = Returns s)
  /\ forall s,
       BarImageChoice.trial rtm trial = Returns s ->
       exists c,
         s = BarImageChoice.start trial c
         /\ randomInt rtm 0 lo_l hi_l = Returns (Stim.left_height c)
         /\ randomInt rtm 1 lo_r hi_r = Returns (Stim.right_height c)
         /\ Stim.left_jitter c
            = Math_round
                (fl rtm (fl rtm (fl rtm (Math_random rtm 0 * 2) - 1)
                         * inject_Z J))%Q
         /\ Stim.right_jitter c
            = Math_round
                (fl rtm (fl rtm (fl rtm (Math_random rtm 1 * 2) - 1)
                         * inject_Z J))%Q
         /\ forall evs d,
              In d (finished (BarImageChoice.run trial c evs s)) ->
              BarImageChoice.trial_data.final_left d = Stim.final_left c
              /\ BarImageChoice.trial_data.final_right d = Stim.final_right c
              /\ BarImageChoice.trial_data.left_jitter d = Stim.left_jitter c
              /\ BarImageChoice.trial_data.right_jitter d = Stim.right_jitter c
              /\ (lo_l <= hi_l -> - 2 ^ 53 <= lo_l - J -> hi_l + J <= 2 ^ 53 ->
                  BarImageChoice.trial_data.final_left d
                  = Stim.left_height c + Stim.left_jitter c
                  /\ lo_l - J <= BarImageChoice.trial_data.final_left d <= hi_l + J)
              /\ (lo_r <= hi_r -> - 2 ^ 53 <= lo_r - J -> hi_r + J <= 2 ^ 53 ->
                  BarImageChoice.trial_data.final_right d
                  = Stim.right_height c + Stim.right_jitter c
                  /\ lo_r - J <= BarImageChoice.trial_data.final_right d <= hi_r + J).
Proof.
  cbv zeta. intros Hok HJ. split.
  - intros Hl Hr.
    destruct (safe_randomInt_range rtm Hok 0%nat _ _ Hl) as (hl & El & _).
    destruct (safe_randomInt_range rtm Hok 1%nat _ _ Hr) as (hr & Er & _).
    eexists. unfold BarImageChoice.trial.
    rewrite (sample_heights_returns rtm _ _ _ hl hr El Er). reflexivity.
  - intros s. unfold BarImageChoice.trial.
    destruct (sample_heights rtm _ _ _) as [c|m] eqn:E; cbn [bind];
      [|discriminate].
    intros [= <-]. exists c.
    destruct (sample_heights_inv _ _ _ _ _ E) as (El & Er & Jl & Jr & Fl & Fr).
    repeat (split; [first [reflexivity | assumption]|]).
    intros evs d Hin.
    destruct (bic_emitted trial c evs d Hin) as (r & _ & Hrep).
    destruct (bic_reported trial c r)
      as (d' & E' & _ & _ & _ & _ & _ & H1 & H2 & H3 & H4).
    rewrite E' in Hrep. injection Hrep as ->.
    repeat (split; [assumption|]).
    split; intros Hrange Hlo Hhi.
    + destruct (safe_randomInt_range rtm Hok 0%nat _ _ Hrange)
        as (h & Eh & Bh).
      rewrite El in Eh. injection Eh as <-.
      assert (Bj := jitter_sample_bounds_safe rtm 0
                      (BarImageChoice.Params.jitter trial) Hok ltac:(lia)).
      rewrite <- Jl in Bj.
      rewrite H1, Fl, number_add_safe by (exact Hok || lia). lia.
    + destruct (safe_randomInt_range rtm Hok 1%nat _ _ Hrange)
        as (h & Eh & Bh).
      rewrite Er in Eh. injection Eh as <-.
      assert (Bj := jitter_sample_bounds_safe rtm 1
                      (BarImageChoice.Params.jitter trial) Hok ltac:(lia)).
      rewrite <- Jr in Bj.
      rewrite H2, Fr, number_add_safe by (exact Hok || lia). lia.
Qed.

(** A trial without listener and limit starts and stays silent. *)
Theorem image_silent_start rtm trial hl hr :
  let left_range := BarImageChoice.Params.left_height_range trial in
  let right_range := BarImageChoice.Params.right_height_range trial in
  BarImageChoice.Params.choices trial = KeyString "NO_KEYS" ->
  BarImageChoice.Params.trial_duration trial = None ->
  randomInt rtm 0 (fst left_range) (snd left_range) = Returns hl ->
  randomInt rtm 1 (fst right_range) (snd right_range) = Returns hr ->
  exists c,
    BarImageChoice.trial rtm trial = Returns (BarImageChoice.start trial c)
    /\ calls (BarImageChoice.start trial c) = []
    /\ finished (BarImageChoice.start trial c) = []
    /\ forall evs,
         BarImageChoice.run trial c evs (BarImageChoice.start trial c)
         = BarImageChoice.start trial c.
Proof.
  cbv zeta. intros Hc Hd El Er. eexists. split.
  { unfold BarImageChoice.trial.
    rewrite (sample_heights_returns rtm _ _ _ hl hr El Er). reflexivity. }
  unfold BarImageChoice.start. rewrite Hc, Hd. cbn [loose_neq].
  repeat split. intros evs. apply quiescent_run. now split.
Qed.

(** An unanswered trial reports null fields. *)
Theorem image_null_report trial c evs :
  BarImageChoice.Params.trial_duration trial <> None ->
  In Expired evs ->
  (forall info, ~ In (KeyCaptured info) evs) ->
  exists d,
    finished (BarImageChoice.run trial c evs (BarImageChoice.start trial c)) = [d]
    /\ BarImageChoice.trial_data.rt d = None
    /\ BarImageChoice.trial_data.key d = None
    /\ BarImageChoice.trial_data.chosen_side d = None
    /\ BarImageChoice.trial_data.accuracy d = None.
Proof.
  intros Hdur Hexp Hkeys.
  generalize (bic_run_start trial c evs). cbv zeta.
  rewrite (outcome_unanswered _ _ evs no_response _ (fun _ => Hkeys) Hdur Hexp).
  intros [-> _].
  destruct (bic_reported trial c no_response)
    as (d & E & Hrt & Hkey & Hside & _ & Hacc & _).
  exists d. rewrite E, Hrt, Hkey, Hacc, Hside. cbn.
  repeat split. now destruct (BarImageChoice.Params.correct_side trial).
Qed.

(** Without a listener the expiry still ends the trial. *)
Theorem image_expiry_without_keys trial c ms evs :
  BarImageChoice.Params.choices trial = KeyString "NO_KEYS" ->
  BarImageChoice.Params.trial_duration trial = Some ms ->
  let s0 := BarImageChoice.start trial c in
  keyboardListener s0 = None /\ listening s0 = false
  /\ calls s0 = [setTimeout_call ms]
  /\ (In Expired evs ->
      let s := BarImageChoice.run trial c evs s0 in
      calls s = [setTimeout_call ms; clearAllTimeouts_call; finishTrial_call]
      /\ exists d,
           finished s = [d]
           /\ BarImageChoice.trial_data.rt d = None
           /\ BarImageChoice.trial_data.key d = None
           /\ BarImageChoice.trial_data.chosen_side d = None
           /\ BarImageChoice.trial_data.accuracy d = None).
Proof.
  intros Hc Hd. cbv zeta.
  assert (E : BarImageChoice.start trial c
              = setTimeout ms
                  (set_innerHTML (Some (Stim.final_left c, Stim.final_right c))
                     fresh))
    by (unfold BarImageChoice.start; rewrite Hc, Hd; reflexivity).
  rewrite E. repeat split.
  all: assert (R : BarImageChoice.run trial c evs
                     (setTimeout ms
                        (set_innerHTML
                           (Some (Stim.final_left c, Stim.final_right c)) fresh))
                   = BarImageChoice.end_trial trial c
                       (set_timeouts []
                          (setTimeout ms
                             (set_innerHTML
                                (Some (Stim.final_left c, Stim.final_right c))
                                fresh))))
         by (apply (run_unheard _ _ ms evs); try reflexivity; try assumption;
             now split).
  all: rewrite R.
  - reflexivity.
  - eexists. split; [reflexivity|]. cbn. repeat split.
    now destruct (BarImageChoice.Params.correct_side trial).
Qed.

(** * More of the trial *)

(** ** The session a run ends in *)

Section TraceState.
Context {D : Type}.
Variables (after_response : KeyInfo.t -> session D -> session D)
          (end_trial : session D -> session D).
Variables (registered : bool) (duration : option Z) (ends : bool).
Variable start : session D.

Hypothesis start_listener :
  keyboardListener start = if registered then Some tt else None.
Hypothesis start_timeouts :
  timeouts start = match duration with Some ms => [ms] | None => [] end.
Hypothesis end_trial_quiescent : forall s,
  (listening s = true -> keyboardListener s <> None) ->
  quiescent (end_trial s).
Hypothesis end_trial_timeouts : forall s,
  end_trial (set_timeouts [] s) = end_trial s.
Hypothesis end_trial_listening : forall s b,
  keyboardListener s <> None -> end_trial (set_listening b s) = end_trial s.
Hypothesis after_response_eq : forall info s,
  after_response info s
  = let s' := match Response.key (response s) with
              | None => set_response (Response.of_info info) s
              | Some _ => s
              end in
    if ends then end_trial s' else s'.

Lemma end_trial_awaiting (r : Response.t) (l : bool) :
  (l = true -> registered = true) ->
  end_trial (awaiting start r l) = end_trial (awaiting start r false).
Proof.
  intros Hl. destruct l; [|reflexivity].
  unfold awaiting. rewrite !end_trial_listening; [reflexivity | |];
    cbn; rewrite start_listener, (Hl eq_refl); discriminate.
Qed.

(** A resolved run ends in the session [end_trial] makes of the start with
    the response of the outcome; an unresolved run ends in the start with
    a response and a listener state of its own. *)
Lemma run_awaiting_state (evs : list event) : forall r l,
  (l = true -> registered = true /\ Response.key r = None) ->
  let s := fold_left (fun s e => deliver after_response end_trial e s) evs
             (awaiting start r l) in
  match outcome duration ends r l evs with
  | Some r' => s = end_trial (awaiting start r' false)
  | None =>
      exists r' l',
        s = awaiting start r' l'
        /\ (l' = true -> registered = true /\ Response.key r' = None)
  end.
Proof.
  induction evs as [|e evs IH]; intros r l Hl; cbv zeta.
  - simpl. now exists r, l.
  - cbn [fold_left outcome]. destruct e as [info|].
    + destruct l.
      * destruct (Hl eq_refl) as [Hreg Hkey].
        rewrite (deliver_key_live after_response end_trial ends start
                   after_response_eq info r Hkey).
        destruct ends.
        -- apply quiescent_run, end_trial_quiescent. discriminate.
        -- apply IH. discriminate.
      * rewrite deliver_key_dead. apply IH. discriminate.
    + rewrite (deliver_expired after_response end_trial duration start
                 start_timeouts).
      destruct duration as [ms|].
      * rewrite end_trial_timeouts, end_trial_awaiting
          by (intros H; apply Hl, H).
        apply quiescent_run, end_trial_quiescent. discriminate.
      * now apply IH.
Qed.

End TraceState.

(** The response of an outcome is the one held at first or that of a key
    press of the trace. *)
Lemma outcome_shape duration ends evs : forall r l r',
  outcome duration ends r l evs = Some r' ->
  r' = r \/ exists info, In (KeyCaptured info) evs /\ r' = Response.of_info info.
Proof.
  induction evs as [|e evs IH]; intros r l r'; cbn [outcome]; [discriminate|].
  destruct e as [info|].
  - destruct l.
    + destruct ends.
      * intros [= <-]. right. exists info. split; [now left | reflexivity].
      * intros H. right. destruct (IH _ _ _ H) as [->|(i & Hi & ->)].
        -- exists info. split; [now left | reflexivity].
        -- exists i. split; [now right | reflexivity].
    + intros H. destruct (IH _ _ _ H) as [->|(i & Hi & ->)]; [now left|].
      right. exists i. split; [now right | reflexivity].
  - destruct duration.
    + intros [= <-]. now left.
    + intros H. destruct (IH _ _ _ H) as [->|(i & Hi & ->)]; [now left|].
      right. exists i. split; [now right | reflexivity].
Qed.

(** Without a limit and with [response_ends_trial] false no trace resolves
    the trial. *)
Lemma outcome_endless r l evs : outcome None false r l evs = None.
Proof.
  revert r l. induction evs as [|e evs IH]; intros r l; [reflexivity|].
  destruct e; cbn [outcome]; [destruct l|]; apply IH.
Qed.

(** ** Both plugins, session by session *)

(** The session a run of the trial ends in. *)
Lemma bc_run_state trial c evs :
  let s := BarChoice.run trial c evs (BarChoice.start trial c) in
  match outcome (BarChoice.Params.trial_duration trial)
          (BarChoice.Params.response_ends_trial trial) no_response
          (loose_neq (BarChoice.Params.choices trial) "NO_KEYS") evs with
  | Some r =>
      s = BarChoice.end_trial trial c (awaiting (BarChoice.start trial c) r false)
  | None => exists r l, s = awaiting (BarChoice.start trial c) r l
  end.
Proof.
  cbv zeta.
  assert (E : awaiting (BarChoice.start trial c) no_response
                (loose_neq (BarChoice.Params.choices trial) "NO_KEYS")
              = BarChoice.start trial c) by start_cases BarChoice.start.
  assert (H := run_awaiting_state (BarChoice.after_response trial c)
           (BarChoice.end_trial trial c)
           (loose_neq (BarChoice.Params.choices trial) "NO_KEYS")
           (BarChoice.Params.trial_duration trial)
           (BarChoice.Params.response_ends_trial trial)
           (BarChoice.start trial c)).
  specialize (H ltac:(start_cases BarChoice.start)
                ltac:(start_cases BarChoice.start)).
  assert (Hq : forall s : BarChoice.session,
             (listening s = true -> keyboardListener s <> None) ->
             quiescent (BarChoice.end_trial trial c s)).
  { intros [r [u|] l tm h f cs]; cbn; intros H'; split; auto.
    destruct l; auto. now destruct H'. }
  specialize (H Hq).
  specialize (H ltac:(intros [r [u|] l tm h f cs]; reflexivity)).
  specialize (H ltac:(intros [r [u|] l tm h f cs] b Hk;
                      [reflexivity | now destruct Hk])).
  specialize (H ltac:(reflexivity) evs no_response
                (loose_neq (BarChoice.Params.choices trial) "NO_KEYS")
                ltac:(now split)).
  cbv zeta in H. rewrite E in H. unfold BarChoice.run, BarChoice.step.
  destruct (outcome _ _ _ _ evs); [exact H|].
  destruct H as (r & l & H & _). now exists r, l.
Qed.

Lemma bic_run_state trial c evs :
  let s := BarImageChoice.run trial c evs (BarImageChoice.start trial c) in
  match outcome (BarImageChoice.Params.trial_duration trial)
          (BarImageChoice.Params.response_ends_trial trial) no_response
          (loose_neq (BarImageChoice.Params.choices trial) "NO_KEYS") evs with
  | Some r =>
      s = BarImageChoice.end_trial trial c (awaiting (BarImageChoice.start trial c) r false)
  | None => exists r l, s = awaiting (BarImageChoice.start trial c) r l
  end.
Proof.
  cbv zeta.
  assert (E : awaiting (BarImageChoice.start trial c) no_response
                (loose_neq (BarImageChoice.Params.choices trial) "NO_KEYS")
              = BarImageChoice.start trial c) by start_cases BarImageChoice.start.
  assert (H := run_awaiting_state (BarImageChoice.after_response trial c)
           (BarImageChoice.end_trial trial c)
           (loose_neq (BarImageChoice.Params.choices trial) "NO_KEYS")
           (BarImageChoice.Params.trial_duration trial)
           (BarImageChoice.Params.response_ends_trial trial)
           (BarImageChoice.start trial c)).
  specialize (H ltac:(start_cases BarImageChoice.start)
                ltac:(start_cases BarImageChoice.start)).
  assert (Hq : forall s : BarImageChoice.session,
             (listening s = true -> keyboardListener s <> None) ->
             quiescent (BarImageChoice.end_trial trial c s)).
  { intros [r [u|] l tm h f cs]; cbn; intros H'; split; auto.
    destruct l; auto. now destruct H'. }
  specialize (H Hq).
  specialize (H ltac:(intros [r [u|] l tm h f cs]; reflexivity)).
  specialize (H ltac:(intros [r [u|] l tm h f cs] b Hk;
                      [reflexivity | now destruct Hk])).
  specialize (H ltac:(reflexivity) evs no_response
                (loose_neq (BarImageChoice.Params.choices trial) "NO_KEYS")
                ltac:(now split)).
  cbv zeta in H. rewrite E in H. unfold BarImageChoice.run, BarImageChoice.step.
  destruct (outcome _ _ _ _ evs); [exact H|].
  destruct H as (r & l & H & _). now exists r, l.
Qed.

(** The rendering parameters a record echoes. *)
Lemma bc_reported_echo trial c r d :
  BarChoice.reported trial c r = [d] ->
  BarChoice.trial_data.prompt d = BarChoice.Params.prompt trial
  /\ BarChoice.trial_data.left_color d = BarChoice.Params.left_color trial
  /\ BarChoice.trial_data.right_color d = BarChoice.Params.right_color trial.
Proof.
  intros [= <-]. repeat split.
Qed.

Lemma bic_reported_echo trial c r d :
  BarImageChoice.reported trial c r = [d] ->
  BarImageChoice.trial_data.prompt d = BarImageChoice.Params.prompt trial
  /\ BarImageChoice.trial_data.left_image d = BarImageChoice.Params.left_image trial
  /\ BarImageChoice.trial_data.right_image d = BarImageChoice.Params.right_image trial.
Proof.
  intros [= <-]. repeat split.
Qed.

(** The fields [end_trial] derives, as functions of the key it reports
    and of the trial. *)
Lemma bc_derived trial c evs d :
  In d (finished (BarChoice.run trial c evs (BarChoice.start trial c))) ->
  BarChoice.trial_data.chosen_side d
  = match BarChoice.trial_data.key d with
    | Some k =>
        if strict_eq k (item (BarChoice.Params.choices trial) 0)
        then Some "left"
        else if strict_eq k (item (BarChoice.Params.choices trial) 1)
             then Some "right" else None
    | None => None
    end
  /\ BarChoice.trial_data.accuracy d
     = match BarChoice.Params.correct_side trial,
             BarChoice.trial_data.chosen_side d with
       | Some correct, Some chosen =>
           Some (if String.eqb chosen correct then 1 else 0)
       | _, _ => None
       end.
Proof.
  intros Hin. destruct (bc_emitted trial c evs d Hin) as (r & _ & Hrep).
  destruct (bc_reported trial c r) as (d' & E & _ & Hkey & Hside & _ & Hacc & _).
  rewrite E in Hrep. injection Hrep as ->. rewrite Hkey. now split.
Qed.

Lemma bic_derived trial c evs d :
  In d (finished (BarImageChoice.run trial c evs (BarImageChoice.start trial c))) ->
  BarImageChoice.trial_data.chosen_side d
  = match BarImageChoice.trial_data.key d with
    | Some k =>
        if strict_eq k (item (BarImageChoice.Params.choices trial) 0)
        then Some "left"
        else if strict_eq k (item (BarImageChoice.Params.choices trial) 1)
             then Some "right" else None
    | None => None
    end
  /\ BarImageChoice.trial_data.accuracy d
     = match BarImageChoice.Params.correct_side trial,
             BarImageChoice.trial_data.chosen_side d with
       | Some correct, Some chosen =>
           Some (if String.eqb chosen correct then 1 else 0)
       | _, _ => None
       end.
Proof.
  intros Hin. destruct (bic_emitted trial c evs d Hin) as (r & _ & Hrep).
  destruct (bic_reported trial c r) as (d' & E & _ & Hkey & Hside & _ & Hacc & _).
  rewrite E in Hrep. injection Hrep as ->. rewrite Hkey. now split.
Qed.

(** Each run of [end_trial] reports one record more. *)
Lemma bc_end_trial_length trial c (s : BarChoice.session) :
  length (finished (BarChoice.end_trial trial c s)) = S (length (finished s)).
Proof.
  destruct s as [r [u|] l tm h f cs]; cbn; rewrite length_app; cbn; lia.
Qed.

Lemma bic_end_trial_length trial c (s : BarImageChoice.session) :
  length (finished (BarImageChoice.end_trial trial c s)) = S (length (finished s)).
Proof.
  destruct s as [r [u|] l tm h f cs]; cbn; rewrite length_app; cbn; lia.
Qed.

(** ** What the code shows beyond the claims *)

(** X1.  With [response_ends_trial] true and a registered listener, the
    first key press ends the trial at once: one record is reported, with
    the key and the reaction time of that press, whatever follows and
    whether or not a [trial_duration] is set. *)
Theorem response_ends_trial_at_once :
  (forall trial c info later,
     BarChoice.Params.response_ends_trial trial = true ->
     loose_neq (BarChoice.Params.choices trial) "NO_KEYS" = true ->
     exists d,
       finished (BarChoice.run trial c (KeyCaptured info :: later)
                   (BarChoice.start trial c)) = [d]
       /\ BarChoice.trial_data.rt d = Some (KeyInfo.rt info)
       /\ BarChoice.trial_data.key d = Some (KeyInfo.key info))
  /\ (forall trial c info later,
        BarImageChoice.Params.response_ends_trial trial = true ->
        loose_neq (BarImageChoice.Params.choices trial) "NO_KEYS" = true ->
        exists d,
          finished (BarImageChoice.run trial c (KeyCaptured info :: later)
                      (BarImageChoice.start trial c)) = [d]
          /\ BarImageChoice.trial_data.rt d = Some (KeyInfo.rt info)
          /\ BarImageChoice.trial_data.key d = Some (KeyInfo.key info)).
Proof.
  split.
  { intros trial c info later.
    intros He Hr.
    generalize (bc_run_start trial c (KeyCaptured info :: later)). cbv zeta.
    rewrite He, Hr. cbn [outcome]. intros [-> _].
    destruct (bc_reported trial c (Response.of_info info))
      as (d & E & Hrt & Hkey & _).
    exists d. now rewrite E, Hrt, Hkey. }
  { intros trial c info later.
    intros He Hr.
    generalize (bic_run_start trial c (KeyCaptured info :: later)). cbv zeta.
    rewrite He, Hr. cbn [outcome]. intros [-> _].
    destruct (bic_reported trial c (Response.of_info info))
      as (d & E & Hrt & Hkey & _).
    exists d. now rewrite E, Hrt, Hkey. }
Qed.

Lemma response_ends_trial_at_once_witness :
  exists d,
    finished (BarChoice.run BarChoice.timed_trial sample_stim
                (press "j" 500 :: [Expired; press "f" 900])
                (BarChoice.start BarChoice.timed_trial sample_stim)) = [d]
    /\ BarChoice.trial_data.rt d = Some 500
    /\ BarChoice.trial_data.key d = Some "j".
Proof.
  apply (proj1 response_ends_trial_at_once BarChoice.timed_trial sample_stim
           {| KeyInfo.key := "j"; KeyInfo.rt := 500 |} [Expired; press "f" 900]);
    reflexivity.
Defined.

(** X2.  With [response_ends_trial] false and no [trial_duration] the trial
    never reports, whatever events fire; with a registered listener the
    first key press is stored in [response], and after it neither a
    listener nor a timeout is left. *)
Theorem trial_never_ends :
  (forall trial c,
     BarChoice.Params.response_ends_trial trial = false ->
     BarChoice.Params.trial_duration trial = None ->
     (forall evs,
        finished (BarChoice.run trial c evs (BarChoice.start trial c)) = [])
     /\ (loose_neq (BarChoice.Params.choices trial) "NO_KEYS" = true ->
         forall info later,
           let s := BarChoice.run trial c (KeyCaptured info :: later)
                      (BarChoice.start trial c) in
           response s = Response.of_info info /\ quiescent s))
  /\ (forall trial c,
        BarImageChoice.Params.response_ends_trial trial = false ->
        BarImageChoice.Params.trial_duration trial = None ->
        (forall evs,
           finished (BarImageChoice.run trial c evs (BarImageChoice.start trial c)) = [])
        /\ (loose_neq (BarImageChoice.Params.choices trial) "NO_KEYS" = true ->
            forall info later,
              let s := BarImageChoice.run trial c (KeyCaptured info :: later)
                         (BarImageChoice.start trial c) in
              response s = Response.of_info info /\ quiescent s)).
Proof.
  split.
  { intros trial c.
    intros He Hd. split.
    - intros evs. generalize (bc_run_start trial c evs). cbv zeta.
      rewrite He, Hd, outcome_endless. intros (r & l & ->).
      start_cases BarChoice.start.
    - intros Hr info later. cbv zeta.
      assert (Hq : quiescent (BarChoice.step trial c (KeyCaptured info)
                                (BarChoice.start trial c))
                   /\ response (BarChoice.step trial c (KeyCaptured info)
                                  (BarChoice.start trial c))
                      = Response.of_info info).
      { unfold BarChoice.step, BarChoice.start, BarChoice.after_response.
        rewrite He, Hd, Hr. cbn. repeat split. }
      change (BarChoice.run trial c (KeyCaptured info :: later)
                (BarChoice.start trial c))
        with (BarChoice.run trial c later
                (BarChoice.step trial c (KeyCaptured info)
                   (BarChoice.start trial c))).
      unfold BarChoice.run at 1 2. unfold BarChoice.step at 1 3.
      rewrite (quiescent_run _ _ later _ (proj1 Hq)).
      split; [exact (proj2 Hq) | exact (proj1 Hq)]. }
  { intros trial c.
    intros He Hd. split.
    - intros evs. generalize (bic_run_start trial c evs). cbv zeta.
      rewrite He, Hd, outcome_endless. intros (r & l & ->).
      start_cases BarImageChoice.start.
    - intros Hr info later. cbv zeta.
      assert (Hq : quiescent (BarImageChoice.step trial c (KeyCaptured info)
                                (BarImageChoice.start trial c))
                   /\ response (BarImageChoice.step trial c (KeyCaptured info)
                                  (BarImageChoice.start trial c))
                      = Response.of_info info).
      { unfold BarImageChoice.step, BarImageChoice.start, BarImageChoice.after_response.
        rewrite He, Hd, Hr. cbn. repeat split. }
      change (BarImageChoice.run trial c (KeyCaptured info :: later)
                (BarImageChoice.start trial c))
        with (BarImageChoice.run trial c later
                (BarImageChoice.step trial c (KeyCaptured info)
                   (BarImageChoice.start trial c))).
      unfold BarImageChoice.run at 1 2. unfold BarImageChoice.step at 1 3.
      rewrite (quiescent_run _ _ later _ (proj1 Hq)).
      split; [exact (proj2 Hq) | exact (proj1 Hq)]. }
Qed.

Lemma trial_never_ends_witness :
  finished (BarChoice.run BarChoice.endless_trial sample_stim
              [press "f" 420; Expired; press "j" 900]
              (BarChoice.start BarChoice.endless_trial sample_stim)) = []
  /\ response (BarChoice.run BarChoice.endless_trial sample_stim
                 [press "f" 420; Expired; press "j" 900]
                 (BarChoice.start BarChoice.endless_trial sample_stim))
     = {| Response.rt := Some 420; Response.key := Some "f" |}.
Proof.
  destruct (proj1 trial_never_ends BarChoice.endless_trial sample_stim
              eq_refl eq_refl) as [H1 H2].
  split.
  - apply H1.
  - apply (H2 eq_refl {| KeyInfo.key := "f"; KeyInfo.rt := 420 |}
             [Expired; press "j" 900]).
Defined.

(** X3.  In every reported record [rt] and [key] are either both [null], or
    the reaction time and the key of one and the same key press of the
    trace. *)
Theorem rt_and_key_together :
  (forall trial c evs d,
     In d (finished (BarChoice.run trial c evs (BarChoice.start trial c))) ->
     (BarChoice.trial_data.rt d = None /\ BarChoice.trial_data.key d = None)
     \/ (exists info,
           In (KeyCaptured info) evs
           /\ BarChoice.trial_data.rt d = Some (KeyInfo.rt info)
           /\ BarChoice.trial_data.key d = Some (KeyInfo.key info)))
  /\ (forall trial c evs d,
        In d (finished (BarImageChoice.run trial c evs (BarImageChoice.start trial c))) ->
        (BarImageChoice.trial_data.rt d = None /\ BarImageChoice.trial_data.key d = None)
        \/ (exists info,
              In (KeyCaptured info) evs
              /\ BarImageChoice.trial_data.rt d = Some (KeyInfo.rt info)
              /\ BarImageChoice.trial_data.key d = Some (KeyInfo.key info))).
Proof.
  split.
  { intros trial c evs d.
    intros Hin. destruct (bc_emitted trial c evs d Hin) as (r & Hout & Hrep).
    destruct (bc_reported trial c r) as (d' & E & Hrt & Hkey & _).
    rewrite E in Hrep. injection Hrep as ->. rewrite Hrt, Hkey.
    destruct (outcome_shape _ _ _ _ _ _ Hout) as [->|(info & Hi & ->)].
    - left. now split.
    - right. exists info. repeat split. exact Hi. }
  { intros trial c evs d.
    intros Hin. destruct (bic_emitted trial c evs d Hin) as (r & Hout & Hrep).
    destruct (bic_reported trial c r) as (d' & E & Hrt & Hkey & _).
    rewrite E in Hrep. injection Hrep as ->. rewrite Hrt, Hkey.
    destruct (outcome_shape _ _ _ _ _ _ Hout) as [->|(info & Hi & ->)].
    - left. now split.
    - right. exists info. repeat split. exact Hi. }
Qed.

Lemma rt_and_key_together_witness :
  exists d,
    In d (finished
            (BarChoice.run BarChoice.timed_trial sample_stim [press "j" 500]
               (BarChoice.start BarChoice.timed_trial sample_stim)))
    /\ exists info,
         In (KeyCaptured info) [press "j" 500]
         /\ BarChoice.trial_data.rt d = Some (KeyInfo.rt info)
         /\ BarChoice.trial_data.key d = Some (KeyInfo.key info).
Proof.
  eexists. split; [vm_compute; left; reflexivity|].
  destruct (proj1 rt_and_key_together BarChoice.timed_trial sample_stim
              [press "j" 500] _ ltac:(vm_compute; left; reflexivity))
    as [[H _]|H]; [discriminate H | exact H].
Defined.

(** X4.  Every reported record echoes the trial's [prompt], its two
    rendering parameters (the colours, or the images) and its
    [correct_side] unchanged. *)
Theorem parameters_echoed :
  (forall trial c evs d,
     In d (finished (BarChoice.run trial c evs (BarChoice.start trial c))) ->
     BarChoice.trial_data.prompt d = BarChoice.Params.prompt trial
     /\ BarChoice.trial_data.left_color d = BarChoice.Params.left_color trial
     /\ BarChoice.trial_data.right_color d = BarChoice.Params.right_color trial
     /\ BarChoice.trial_data.correct_side d = BarChoice.Params.correct_side trial)
  /\ (forall trial c evs d,
        In d (finished (BarImageChoice.run trial c evs (BarImageChoice.start trial c))) ->
        BarImageChoice.trial_data.prompt d = BarImageChoice.Params.prompt trial
        /\ BarImageChoice.trial_data.left_image d = BarImageChoice.Params.left_image trial
        /\ BarImageChoice.trial_data.right_image d = BarImageChoice.Params.right_image trial
        /\ BarImageChoice.trial_data.correct_side d = BarImageChoice.Params.correct_side trial).
Proof.
  split.
  { intros trial c evs d.
    intros Hin. destruct (bc_emitted trial c evs d Hin) as (r & _ & Hrep).
    destruct (bc_reported_echo trial c r d Hrep) as (H1 & H2 & H3).
    destruct (bc_reported trial c r) as (d' & E & _ & _ & _ & H4 & _).
    rewrite E in Hrep. injection Hrep as ->. auto. }
  { intros trial c evs d.
    intros Hin. destruct (bic_emitted trial c evs d Hin) as (r & _ & Hrep).
    destruct (bic_reported_echo trial c r d Hrep) as (H1 & H2 & H3).
    destruct (bic_reported trial c r) as (d' & E & _ & _ & _ & H4 & _).
    rewrite E in Hrep. injection Hrep as ->. auto. }
Qed.

Lemma parameters_echoed_witness :
  exists d,
    In d (finished
            (BarChoice.run BarChoice.timed_trial sample_stim [Expired]
               (BarChoice.start BarChoice.timed_trial sample_stim)))
    /\ BarChoice.trial_data.prompt d = Some "dog"
    /\ BarChoice.trial_data.left_color d = "#3498db"
    /\ BarChoice.trial_data.right_color d = "#e74c3c"
    /\ BarChoice.trial_data.correct_side d = Some "left".
Proof.
  eexists. split; [vm_compute; left; reflexivity|].
  apply (proj1 parameters_echoed BarChoice.timed_trial sample_stim [Expired]).
  vm_compute. left. reflexivity.
Defined.

(** X5.  After any events, either nothing is reported and the display
    element still shows the two bars at [final_left] and [final_right], or
    one record is reported, the display element is empty, and the record
    carries the heights that were shown. *)
Theorem display_until_report :
  (forall trial c evs,
     let s := BarChoice.run trial c evs (BarChoice.start trial c) in
     (finished s = [] /\ innerHTML s = Some (Stim.final_left c, Stim.final_right c))
     \/ (exists d,
           finished s = [d] /\ innerHTML s = None
           /\ BarChoice.trial_data.final_left d = Stim.final_left c
           /\ BarChoice.trial_data.final_right d = Stim.final_right c))
  /\ (forall trial c evs,
        let s := BarImageChoice.run trial c evs (BarImageChoice.start trial c) in
        (finished s = [] /\ innerHTML s = Some (Stim.final_left c, Stim.final_right c))
        \/ (exists d,
              finished s = [d] /\ innerHTML s = None
              /\ BarImageChoice.trial_data.final_left d = Stim.final_left c
              /\ BarImageChoice.trial_data.final_right d = Stim.final_right c)).
Proof.
  split.
  { intros trial c evs.
    cbv zeta. generalize (bc_run_state trial c evs) (bc_run_start trial c evs).
    cbv zeta. destruct (outcome _ _ _ _ evs) as [r|].
    - intros Hs [Hf _]. right.
      destruct (bc_reported trial c r)
        as (d & E & _ & _ & _ & _ & _ & Hl & Hr & _).
      exists d. rewrite Hf, E, Hl, Hr, Hs. repeat split.
    - intros (r & l & ->) _. left. split; start_cases BarChoice.start. }
  { intros trial c evs.
    cbv zeta. generalize (bic_run_state trial c evs) (bic_run_start trial c evs).
    cbv zeta. destruct (outcome _ _ _ _ evs) as [r|].
    - intros Hs [Hf _]. right.
      destruct (bic_reported trial c r)
        as (d & E & _ & _ & _ & _ & _ & Hl & Hr & _).
      exists d. rewrite Hf, E, Hl, Hr, Hs. repeat split.
    - intros (r & l & ->) _. left. split; start_cases BarImageChoice.start. }
Qed.

(** X6.  The calls of the plugin API.  [trial] registers the listener
    (unless [choices] compares equal to "NO_KEYS") and then the timeout
    (if [trial_duration] is set); nothing more is called until the trial
    reports; and a trial that has reported has called, in this order and
    once each, [clearAllTimeouts], [cancelKeyboardResponse] (exactly when
    a listener was registered) and [finishTrial], which is the last
    call. *)
Theorem api_calls_in_order :
  (forall trial c evs,
     let registered := loose_neq (BarChoice.Params.choices trial) "NO_KEYS" in
     let s := BarChoice.run trial c evs (BarChoice.start trial c) in
     let opening :=
       (if registered then [getKeyboardResponse_call] else [])
       ++ match BarChoice.Params.trial_duration trial with
          | Some ms => [setTimeout_call ms]
          | None => []
          end in
     let closing :=
       [clearAllTimeouts_call]
       ++ (if registered then [cancelKeyboardResponse_call] else [])
       ++ [finishTrial_call] in
     calls (BarChoice.start trial c) = opening
     /\ (finished s = [] -> calls s = opening)
     /\ (finished s <> [] -> calls s = opening ++ closing))
  /\ (forall trial c evs,
        let registered := loose_neq (BarImageChoice.Params.choices trial) "NO_KEYS" in
        let s := BarImageChoice.run trial c evs (BarImageChoice.start trial c) in
        let opening :=
          (if registered then [getKeyboardResponse_call] else [])
          ++ match BarImageChoice.Params.trial_duration trial with
             | Some ms => [setTimeout_call ms]
             | None => []
             end in
        let closing :=
          [clearAllTimeouts_call]
          ++ (if registered then [cancelKeyboardResponse_call] else [])
          ++ [finishTrial_call] in
        calls (BarImageChoice.start trial c) = opening
        /\ (finished s = [] -> calls s = opening)
        /\ (finished s <> [] -> calls s = opening ++ closing)).
Proof.
  split.
  { intros trial c evs.
    cbv zeta. split; [start_cases BarChoice.start|].
    generalize (bc_run_state trial c evs). cbv zeta.
    destruct (outcome _ _ _ _ evs) as [r|].
    - intros ->. split.
      + unfold BarChoice.start.
        destruct (loose_neq _ _), (BarChoice.Params.trial_duration trial);
          discriminate.
      + intros _. unfold BarChoice.start.
        destruct (loose_neq _ _), (BarChoice.Params.trial_duration trial);
          reflexivity.
    - intros (r & l & ->). split.
      + intros _. start_cases BarChoice.start.
      + intros H. exfalso. apply H. start_cases BarChoice.start. }
  { intros trial c evs.
    cbv zeta. split; [start_cases BarImageChoice.start|].
    generalize (bic_run_state trial c evs). cbv zeta.
    destruct (outcome _ _ _ _ evs) as [r|].
    - intros ->. split.
      + unfold BarImageChoice.start.
        destruct (loose_neq _ _), (BarImageChoice.Params.trial_duration trial);
          discriminate.
      + intros _. unfold BarImageChoice.start.
        destruct (loose_neq _ _), (BarImageChoice.Params.trial_duration trial);
          reflexivity.
    - intros (r & l & ->). split.
      + intros _. start_cases BarImageChoice.start.
      + intros H. exfalso. apply H. start_cases BarImageChoice.start. }
Qed.

Lemma api_calls_in_order_witness :
  calls (BarChoice.run BarChoice.timed_trial sample_stim
           [press "j" 500; Expired]
           (BarChoice.start BarChoice.timed_trial sample_stim))
  = [getKeyboardResponse_call; setTimeout_call 2000; clearAllTimeouts_call;
     cancelKeyboardResponse_call; finishTrial_call].
Proof.
  apply (proj2 (proj2 (proj1 api_calls_in_order BarChoice.timed_trial
                         sample_stim [press "j" 500; Expired]))).
  vm_compute. discriminate.
Defined.

(** X7.  From the key to the score: the accuracy of a reported record is 1
    if and only if [correct_side] is "left" and the captured key is
    [choices[0]], or [correct_side] is "right" and the captured key is
    [choices[1]] and not [choices[0]]. *)
Theorem accuracy_of_key :
  (forall trial c evs d,
     In d (finished (BarChoice.run trial c evs (BarChoice.start trial c))) ->
     let choices := BarChoice.Params.choices trial in
     let correct_side := BarChoice.Params.correct_side trial in
     BarChoice.trial_data.accuracy d = Some 1
     <-> exists k,
           BarChoice.trial_data.key d = Some k
           /\ ((correct_side = Some "left" /\ item choices 0 = Some k)
               \/ (correct_side = Some "right" /\ item choices 1 = Some k
                   /\ item choices 0 <> Some k)))
  /\ (forall trial c evs d,
        In d (finished (BarImageChoice.run trial c evs (BarImageChoice.start trial c))) ->
        let choices := BarImageChoice.Params.choices trial in
        let correct_side := BarImageChoice.Params.correct_side trial in
        BarImageChoice.trial_data.accuracy d = Some 1
        <-> exists k,
              BarImageChoice.trial_data.key d = Some k
              /\ ((correct_side = Some "left" /\ item choices 0 = Some k)
                  \/ (correct_side = Some "right" /\ item choices 1 = Some k
                      /\ item choices 0 <> Some k))).
Proof.
  split.
  { intros trial c evs d.
    intros Hin. cbv zeta. destruct (bc_derived trial c evs d Hin) as [Hs Ha].
    rewrite Ha, Hs. clear.
    destruct (BarChoice.trial_data.key d) as [k|].
    - destruct (strict_eq k (item (BarChoice.Params.choices trial) 0)) eqn:E0;
        [|destruct (strict_eq k (item (BarChoice.Params.choices trial) 1)) eqn:E1].
      + apply strict_eq_true in E0.
        destruct (BarChoice.Params.correct_side trial) as [cs|].
        * destruct (String.eqb_spec "left" cs) as [<-|N]; split.
          -- intros _. exists k. split; [reflexivity|]. now left.
          -- reflexivity.
          -- discriminate.
          -- intros (k' & [= <-] & [[[= H] _]|[_ [_ H]]]); congruence.
        * split; [discriminate|].
          intros (k' & _ & [[H _]|[H _]]); discriminate.
      + apply strict_eq_true in E1.
        assert (N0 : item (BarChoice.Params.choices trial) 0 <> Some k)
          by (intros H; apply strict_eq_true in H; congruence).
        destruct (BarChoice.Params.correct_side trial) as [cs|].
        * destruct (String.eqb_spec "right" cs) as [<-|N]; split.
          -- intros _. exists k. split; [reflexivity|]. now right.
          -- reflexivity.
          -- discriminate.
          -- intros (k' & [= <-] & [[_ H]|[[= H] _]]); congruence.
        * split; [discriminate|].
          intros (k' & _ & [[H _]|[H _]]); discriminate.
      + assert (N0 : item (BarChoice.Params.choices trial) 0 <> Some k)
          by (intros H; apply strict_eq_true in H; congruence).
        assert (N1 : item (BarChoice.Params.choices trial) 1 <> Some k)
          by (intros H; apply strict_eq_true in H; congruence).
        destruct (BarChoice.Params.correct_side trial) as [cs|];
          (split; [discriminate|]);
          intros (k' & [= <-] & [[_ H]|[_ [H _]]]); congruence.
    - destruct (BarChoice.Params.correct_side trial) as [cs|];
        (split; [discriminate|]); intros (k' & H & _); discriminate. }
  { intros trial c evs d.
    intros Hin. cbv zeta. destruct (bic_derived trial c evs d Hin) as [Hs Ha].
    rewrite Ha, Hs. clear.
    destruct (BarImageChoice.trial_data.key d) as [k|].
    - destruct (strict_eq k (item (BarImageChoice.Params.choices trial) 0)) eqn:E0;
        [|destruct (strict_eq k (item (BarImageChoice.Params.choices trial) 1)) eqn:E1].
      + apply strict_eq_true in E0.
        destruct (BarImageChoice.Params.correct_side trial) as [cs|].
        * destruct (String.eqb_spec "left" cs) as [<-|N]; split.
          -- intros _. exists k. split; [reflexivity|]. now left.
          -- reflexivity.
          -- discriminate.
          -- intros (k' & [= <-] & [[[= H] _]|[_ [_ H]]]); congruence.
        * split; [discriminate|].
          intros (k' & _ & [[H _]|[H _]]); discriminate.
      + apply strict_eq_true in E1.
        assert (N0 : item (BarImageChoice.Params.choices trial) 0 <> Some k)
          by (intros H; apply strict_eq_true in H; congruence).
        destruct (BarImageChoice.Params.correct_side trial) as [cs|].
        * destruct (String.eqb_spec "right" cs) as [<-|N]; split.
          -- intros _. exists k. split; [reflexivity|]. now right.
          -- reflexivity.
          -- discriminate.
          -- intros (k' & [= <-] & [[_ H]|[[= H] _]]); congruence.
        * split; [discriminate|].
          intros (k' & _ & [[H _]|[H _]]); discriminate.
      + assert (N0 : item (BarImageChoice.Params.choices trial) 0 <> Some k)
          by (intros H; apply strict_eq_true in H; congruence).
        assert (N1 : item (BarImageChoice.Params.choices trial) 1 <> Some k)
          by (intros H; apply strict_eq_true in H; congruence).
        destruct (BarImageChoice.Params.correct_side trial) as [cs|];
          (split; [discriminate|]);
          intros (k' & [= <-] & [[_ H]|[_ [H _]]]); congruence.
    - destruct (BarImageChoice.Params.correct_side trial) as [cs|];
        (split; [discriminate|]); intros (k' & H & _); discriminate. }
Qed.

Lemma accuracy_of_key_witness :
  exists d,
    In d (finished
            (BarChoice.run BarChoice.timed_trial sample_stim [press "f" 420]
               (BarChoice.start BarChoice.timed_trial sample_stim)))
    /\ BarChoice.trial_data.accuracy d = Some 1.
Proof.
  eexists. split; [vm_compute; left; reflexivity|].
  apply (proj1 accuracy_of_key BarChoice.timed_trial sample_stim
           [press "f" 420] _ ltac:(vm_compute; left; reflexivity)).
  exists "f". split; [reflexivity|]. left. split; reflexivity.
Defined.

(** X8.  [correct_side] is compared as a string: when it is neither "left"
    nor "right" (another spelling, say), no record has accuracy 1, and
    every record with a chosen side has accuracy 0. *)
Theorem unknown_correct_side_scores_zero :
  (forall trial c evs d cs,
     BarChoice.Params.correct_side trial = Some cs ->
     cs <> "left" -> cs <> "right" ->
     In d (finished (BarChoice.run trial c evs (BarChoice.start trial c))) ->
     BarChoice.trial_data.accuracy d <> Some 1
     /\ (BarChoice.trial_data.chosen_side d <> None ->
         BarChoice.trial_data.accuracy d = Some 0))
  /\ (forall trial c evs d cs,
        BarImageChoice.Params.correct_side trial = Some cs ->
        cs <> "left" -> cs <> "right" ->
        In d (finished (BarImageChoice.run trial c evs (BarImageChoice.start trial c))) ->
        BarImageChoice.trial_data.accuracy d <> Some 1
        /\ (BarImageChoice.trial_data.chosen_side d <> None ->
            BarImageChoice.trial_data.accuracy d = Some 0)).
Proof.
  split.
  { intros trial c evs d cs.
    intros Hcs Nl Nr Hin. destruct (bc_derived trial c evs d Hin) as [Hs Ha].
    rewrite Ha, Hcs, Hs. clear - Nl Nr.
    destruct (BarChoice.trial_data.key d) as [k|]; [|split; congruence].
    destruct (strict_eq k _); [|destruct (strict_eq k _)].
    - destruct (String.eqb_spec "left" cs); [congruence|]. split; congruence.
    - destruct (String.eqb_spec "right" cs); [congruence|]. split; congruence.
    - split; congruence. }
  { intros trial c evs d cs.
    intros Hcs Nl Nr Hin. destruct (bic_derived trial c evs d Hin) as [Hs Ha].
    rewrite Ha, Hcs, Hs. clear - Nl Nr.
    destruct (BarImageChoice.trial_data.key d) as [k|]; [|split; congruence].
    destruct (strict_eq k _); [|destruct (strict_eq k _)].
    - destruct (String.eqb_spec "left" cs); [congruence|]. split; congruence.
    - destruct (String.eqb_spec "right" cs); [congruence|]. split; congruence.
    - split; congruence. }
Qed.

Lemma unknown_correct_side_scores_zero_witness :
  exists d,
    In d (finished
            (BarChoice.run
               (BarChoice.example 5 (KeyArray ["f"; "j"]) (Some "Left")
                  (Some 2000) true)
               sample_stim [press "f" 420]
               (BarChoice.start
                  (BarChoice.example 5 (KeyArray ["f"; "j"]) (Some "Left")
                     (Some 2000) true)
                  sample_stim)))
    /\ BarChoice.trial_data.chosen_side d = Some "left"
    /\ BarChoice.trial_data.accuracy d = Some 0.
Proof.
  eexists. split; [vm_compute; left; reflexivity|].
  split; [reflexivity|].
  apply (proj1 unknown_correct_side_scores_zero
           (BarChoice.example 5 (KeyArray ["f"; "j"]) (Some "Left")
              (Some 2000) true)
           sample_stim [press "f" 420] _ "Left" eq_refl
           ltac:(discriminate) ltac:(discriminate)
           ltac:(vm_compute; left; reflexivity)).
  discriminate.
Defined.

(** X9.  [choices] with fewer than two keys: with at most one key no record
    has the side "right"; with none, every record has [chosen_side] and
    [accuracy] [null]. *)
Theorem short_choices :
  (forall trial c evs d l,
     BarChoice.Params.choices trial = KeyArray l ->
     In d (finished (BarChoice.run trial c evs (BarChoice.start trial c))) ->
     ((length l <= 1)%nat -> BarChoice.trial_data.chosen_side d <> Some "right")
     /\ (l = [] ->
         BarChoice.trial_data.chosen_side d = None
         /\ BarChoice.trial_data.accuracy d = None))
  /\ (forall trial c evs d l,
        BarImageChoice.Params.choices trial = KeyArray l ->
        In d (finished (BarImageChoice.run trial c evs (BarImageChoice.start trial c))) ->
        ((length l <= 1)%nat -> BarImageChoice.trial_data.chosen_side d <> Some "right")
        /\ (l = [] ->
            BarImageChoice.trial_data.chosen_side d = None
            /\ BarImageChoice.trial_data.accuracy d = None)).
Proof.
  split.
  { intros trial c evs d l.
    intros Hc Hin. destruct (bc_derived trial c evs d Hin) as [Hs Ha].
    rewrite Ha, Hs, Hc. clear.
    split.
    - intros Hlen. destruct (BarChoice.trial_data.key d) as [k|]; [|discriminate].
      destruct (strict_eq k _); [discriminate|].
      destruct l as [|a [|b l]]; cbn in *; try discriminate; lia.
    - intros ->. destruct (BarChoice.trial_data.key d) as [k|]; cbn;
        now destruct (BarChoice.Params.correct_side trial). }
  { intros trial c evs d l.
    intros Hc Hin. destruct (bic_derived trial c evs d Hin) as [Hs Ha].
    rewrite Ha, Hs, Hc. clear.
    split.
    - intros Hlen. destruct (BarImageChoice.trial_data.key d) as [k|]; [|discriminate].
      destruct (strict_eq k _); [discriminate|].
      destruct l as [|a [|b l]]; cbn in *; try discriminate; lia.
    - intros ->. destruct (BarImageChoice.trial_data.key d) as [k|]; cbn;
        now destruct (BarImageChoice.Params.correct_side trial). }
Qed.

Lemma short_choices_witness :
  exists d,
    In d (finished
            (BarChoice.run BarChoice.malformed_trial sample_stim
               [press "f" 420]
               (BarChoice.start BarChoice.malformed_trial sample_stim)))
    /\ BarChoice.trial_data.chosen_side d <> Some "right".
Proof.
  eexists. split; [vm_compute; left; reflexivity|].
  apply (proj1 short_choices BarChoice.malformed_trial sample_stim
           [press "f" 420] _ ["f"] eq_refl
           ltac:(vm_compute; left; reflexivity)).
  cbn. lia.
Defined.

(** X10.  When [choices] is an ASCII string ("ALL_KEYS", say),
    [choices[0]] and [choices[1]] are its first two characters: a captured
    key whose name is ASCII and not a single character ("Enter", say) gets
    no side and no accuracy. *)
Theorem string_choices_by_character :
  (forall trial c evs d s k,
     BarChoice.Params.choices trial = KeyString s ->
     ascii_only s = true ->
     In d (finished (BarChoice.run trial c evs (BarChoice.start trial c))) ->
     BarChoice.trial_data.key d = Some k ->
     ascii_only k = true ->
     String.length k <> 1%nat ->
     BarChoice.trial_data.chosen_side d = None
     /\ BarChoice.trial_data.accuracy d = None)
  /\ (forall trial c evs d s k,
        BarImageChoice.Params.choices trial = KeyString s ->
        ascii_only s = true ->
        In d (finished (BarImageChoice.run trial c evs (BarImageChoice.start trial c))) ->
        BarImageChoice.trial_data.key d = Some k ->
        ascii_only k = true ->
        String.length k <> 1%nat ->
        BarImageChoice.trial_data.chosen_side d = None
        /\ BarImageChoice.trial_data.accuracy d = None).
Proof.
  split.
  { intros trial c evs d s k.
    intros Hc _ Hin Hk _ Hlen.
    destruct (bc_derived trial c evs d Hin) as [Hs Ha].
    rewrite Ha, Hs, Hc, Hk.
    assert (N : forall i, strict_eq k (item (KeyString s) i) = false).
    { intros i. cbn. destruct (String.get i s) as [a|]; [|reflexivity].
      cbn. apply String.eqb_neq. intros ->. now apply Hlen. }
    rewrite !N. now destruct (BarChoice.Params.correct_side trial). }
  { intros trial c evs d s k.
    intros Hc _ Hin Hk _ Hlen.
    destruct (bic_derived trial c evs d Hin) as [Hs Ha].
    rewrite Ha, Hs, Hc, Hk.
    assert (N : forall i, strict_eq k (item (KeyString s) i) = false).
    { intros i. cbn. destruct (String.get i s) as [a|]; [|reflexivity].
      cbn. apply String.eqb_neq. intros ->. now apply Hlen. }
    rewrite !N. now destruct (BarImageChoice.Params.correct_side trial). }
Qed.

Lemma string_choices_by_character_witness :
  exists d,
    In d (finished
            (BarChoice.run
               (BarChoice.example 5 (KeyString "ALL_KEYS") (Some "left")
                  (Some 2000) true)
               sample_stim [press "Enter" 420]
               (BarChoice.start
                  (BarChoice.example 5 (KeyString "ALL_KEYS") (Some "left")
                     (Some 2000) true)
                  sample_stim)))
    /\ BarChoice.trial_data.chosen_side d = None
    /\ BarChoice.trial_data.accuracy d = None.
Proof.
  eexists. split; [vm_compute; left; reflexivity|].
  apply (proj1 string_choices_by_character
           (BarChoice.example 5 (KeyString "ALL_KEYS") (Some "left")
              (Some 2000) true)
           sample_stim [press "Enter" 420] _ "ALL_KEYS" "Enter" eq_refl
           eq_refl ltac:(vm_compute; left; reflexivity) eq_refl eq_refl).
  discriminate.
Defined.

(** X11.  The sentinel is compared loosely: whenever [choices], converted to
    a string, is "NO_KEYS" (the string itself, or the array holding it
    alone), no listener is ever registered, and every record has [rt],
    [key], [chosen_side] and [accuracy] [null], whatever keys are
    pressed. *)
Theorem sentinel_disables_capture :
  (forall trial c evs,
     to_primitive (BarChoice.Params.choices trial) = "NO_KEYS" ->
     keyboardListener (BarChoice.run trial c evs (BarChoice.start trial c)) = None
     /\ ~ In getKeyboardResponse_call
            (calls (BarChoice.run trial c evs (BarChoice.start trial c)))
     /\ forall d,
          In d (finished (BarChoice.run trial c evs (BarChoice.start trial c))) ->
          BarChoice.trial_data.rt d = None
          /\ BarChoice.trial_data.key d = None
          /\ BarChoice.trial_data.chosen_side d = None
          /\ BarChoice.trial_data.accuracy d = None)
  /\ (forall trial c evs,
        to_primitive (BarImageChoice.Params.choices trial) = "NO_KEYS" ->
        keyboardListener (BarImageChoice.run trial c evs (BarImageChoice.start trial c)) = None
        /\ ~ In getKeyboardResponse_call
               (calls (BarImageChoice.run trial c evs (BarImageChoice.start trial c)))
        /\ forall d,
             In d (finished (BarImageChoice.run trial c evs (BarImageChoice.start trial c))) ->
             BarImageChoice.trial_data.rt d = None
             /\ BarImageChoice.trial_data.key d = None
             /\ BarImageChoice.trial_data.chosen_side d = None
             /\ BarImageChoice.trial_data.accuracy d = None).
Proof.
  split.
  { intros trial c evs.
    intros Hp.
    assert (Hreg : loose_neq (BarChoice.Params.choices trial) "NO_KEYS" = false)
      by (unfold loose_neq; rewrite Hp; reflexivity).
    split; [|split].
    - generalize (bc_run_state trial c evs). cbv zeta.
      destruct (outcome _ _ _ _ evs) as [r|]; [intros -> | intros (r & l & ->)];
        unfold BarChoice.start; rewrite Hreg;
        destruct (BarChoice.Params.trial_duration trial); reflexivity.
    - generalize (bc_run_state trial c evs). cbv zeta.
      destruct (outcome _ _ _ _ evs) as [r|]; [intros -> | intros (r & l & ->)];
        unfold BarChoice.start; rewrite Hreg;
        destruct (BarChoice.Params.trial_duration trial); cbn;
        intuition discriminate.
    - intros d Hin. destruct (bc_emitted trial c evs d Hin) as (r & Hout & Hrep).
      rewrite Hreg in Hout.
      assert (r = no_response).
      { clear - Hout. revert Hout. generalize no_response as r0.
        induction evs as [|e evs IH]; intros r0; cbn [outcome]; [discriminate|].
        destruct e; [apply IH|].
        destruct (BarChoice.Params.trial_duration trial);
          [now intros [= <-] | apply IH]. }
      subst r. destruct (bc_reported trial c no_response)
        as (d' & E & Hrt & Hkey & Hside & _ & Hacc & _).
      rewrite E in Hrep. injection Hrep as ->.
      rewrite Hrt, Hkey, Hacc, Hside. cbn. repeat split.
      now destruct (BarChoice.Params.correct_side trial). }
  { intros trial c evs.
    intros Hp.
    assert (Hreg : loose_neq (BarImageChoice.Params.choices trial) "NO_KEYS" = false)
      by (unfold loose_neq; rewrite Hp; reflexivity).
    split; [|split].
    - generalize (bic_run_state trial c evs). cbv zeta.
      destruct (outcome _ _ _ _ evs) as [r|]; [intros -> | intros (r & l & ->)];
        unfold BarImageChoice.start; rewrite Hreg;
        destruct (BarImageChoice.Params.trial_duration trial); reflexivity.
    - generalize (bic_run_state trial c evs). cbv zeta.
      destruct (outcome _ _ _ _ evs) as [r|]; [intros -> | intros (r & l & ->)];
        unfold BarImageChoice.start; rewrite Hreg;
        destruct (BarImageChoice.Params.trial_duration trial); cbn;
        intuition discriminate.
    - intros d Hin. destruct (bic_emitted trial c evs d Hin) as (r & Hout & Hrep).
      rewrite Hreg in Hout.
      assert (r = no_response).
      { clear - Hout. revert Hout. generalize no_response as r0.
        induction evs as [|e evs IH]; intros r0; cbn [outcome]; [discriminate|].
        destruct e; [apply IH|].
        destruct (BarImageChoice.Params.trial_duration trial);
          [now intros [= <-] | apply IH]. }
      subst r. destruct (bic_reported trial c no_response)
        as (d' & E & Hrt & Hkey & Hside & _ & Hacc & _).
      rewrite E in Hrep. injection Hrep as ->.
      rewrite Hrt, Hkey, Hacc, Hside. cbn. repeat split.
      now destruct (BarImageChoice.Params.correct_side trial). }
Qed.

Lemma sentinel_disables_capture_witness :
  let trial := BarChoice.example 5 (KeyArray ["NO_KEYS"]) (Some "left")
                 (Some 2000) true in
  let s := BarChoice.run trial sample_stim [press "f" 420; Expired]
             (BarChoice.start trial sample_stim) in
  keyboardListener s = None
  /\ ~ In getKeyboardResponse_call (calls s)
  /\ forall d,
       In d (finished s) ->
       BarChoice.trial_data.rt d = None
       /\ BarChoice.trial_data.key d = None
       /\ BarChoice.trial_data.chosen_side d = None
       /\ BarChoice.trial_data.accuracy d = None.
Proof.
  apply (proj1 sentinel_disables_capture
           (BarChoice.example 5 (KeyArray ["NO_KEYS"]) (Some "left")
              (Some 2000) true)
           sample_stim [press "f" 420; Expired]).
  reflexivity.
Defined.







(** X15.  [response] is written once, by the closure itself: however often
    [after_response] is called, with whatever payloads, on a session that
    holds no key, [response] is the payload of the first call. *)
Theorem response_written_once :
  (forall trial c info infos,
      forall s,
     Response.key (response s) = None ->
     response (fold_left (fun s i => BarChoice.after_response trial c i s)
                 (info :: infos) s)
     = Response.of_info info)
  /\ (forall trial c info infos,
         forall s,
        Response.key (response s) = None ->
        response (fold_left (fun s i => BarImageChoice.after_response trial c i s)
                    (info :: infos) s)
        = Response.of_info info).
Proof.
  split.
  { intros trial c info infos.
    assert (Hend : forall s, response (BarChoice.end_trial trial c s) = response s)
      by (intros [r [u|] l tm h f cs]; reflexivity).
    assert (Hkeep : forall i s,
               Response.key (response s) <> None ->
               response (BarChoice.after_response trial c i s) = response s).
    { intros i s Hk. unfold BarChoice.after_response.
      destruct (Response.key (response s)); [|now destruct Hk].
      destruct (BarChoice.Params.response_ends_trial trial);
        [apply Hend | reflexivity]. }
    intros s Hs. cbn [fold_left].
    assert (H1 : response (BarChoice.after_response trial c info s)
                 = Response.of_info info).
    { unfold BarChoice.after_response. rewrite Hs.
      destruct (BarChoice.Params.response_ends_trial trial);
        [rewrite Hend|]; reflexivity. }
    revert H1. generalize (BarChoice.after_response trial c info s).
    induction infos as [|i infos IH]; intros s' H1; [exact H1|].
    cbn [fold_left]. apply IH. rewrite Hkeep; [exact H1|].
    rewrite H1. discriminate. }
  { intros trial c info infos.
    assert (Hend : forall s, response (BarImageChoice.end_trial trial c s) = response s)
      by (intros [r [u|] l tm h f cs]; reflexivity).
    assert (Hkeep : forall i s,
               Response.key (response s) <> None ->
               response (BarImageChoice.after_response trial c i s) = response s).
    { intros i s Hk. unfold BarImageChoice.after_response.
      destruct (Response.key (response s)); [|now destruct Hk].
      destruct (BarImageChoice.Params.response_ends_trial trial);
        [apply Hend | reflexivity]. }
    intros s Hs. cbn [fold_left].
    assert (H1 : response (BarImageChoice.after_response trial c info s)
                 = Response.of_info info).
    { unfold BarImageChoice.after_response. rewrite Hs.
      destruct (BarImageChoice.Params.response_ends_trial trial);
        [rewrite Hend|]; reflexivity. }
    revert H1. generalize (BarImageChoice.after_response trial c info s).
    induction infos as [|i infos IH]; intros s' H1; [exact H1|].
    cbn [fold_left]. apply IH. rewrite Hkeep; [exact H1|].
    rewrite H1. discriminate. }
Qed.

Lemma response_written_once_witness :
  response
    (fold_left
       (fun s i => BarChoice.after_response BarChoice.patient_trial sample_stim i s)
       [{| KeyInfo.key := "f"; KeyInfo.rt := 420 |};
        {| KeyInfo.key := "j"; KeyInfo.rt := 900 |}]
       (BarChoice.start BarChoice.patient_trial sample_stim))
  = {| Response.rt := Some 420; Response.key := Some "f" |}.
Proof.
  apply (proj1 response_written_once BarChoice.patient_trial sample_stim
           {| KeyInfo.key := "f"; KeyInfo.rt := 420 |}
           [{| KeyInfo.key := "j"; KeyInfo.rt := 900 |}]).
  reflexivity.
Defined.

(** X16.  The closures keep no record of having reported: called directly
    [n] times, [after_response] reports [n] records when
    [response_ends_trial] is true, and none when it is false. *)
Theorem direct_calls_report_each :
  (forall trial c infos,
      forall s,
     length (finished (fold_left (fun s i => BarChoice.after_response trial c i s)
                         infos s))
     = (length (finished s)
        + if BarChoice.Params.response_ends_trial trial then length infos else 0)%nat)
  /\ (forall trial c infos,
         forall s,
        length (finished (fold_left (fun s i => BarImageChoice.after_response trial c i s)
                            infos s))
        = (length (finished s)
           + if BarImageChoice.Params.response_ends_trial trial then length infos else 0)%nat).
Proof.
  split.
  { intros trial c infos.
    induction infos as [|i infos IH]; intros s; cbn [fold_left length].
    - destruct (BarChoice.Params.response_ends_trial trial); lia.
    - rewrite IH. unfold BarChoice.after_response.
      destruct (BarChoice.Params.response_ends_trial trial);
        [rewrite bc_end_trial_length|];
        destruct (Response.key (response s)); cbn; lia. }
  { intros trial c infos.
    induction infos as [|i infos IH]; intros s; cbn [fold_left length].
    - destruct (BarImageChoice.Params.response_ends_trial trial); lia.
    - rewrite IH. unfold BarImageChoice.after_response.
      destruct (BarImageChoice.Params.response_ends_trial trial);
        [rewrite bic_end_trial_length|];
        destruct (Response.key (response s)); cbn; lia. }
Qed.

